(** * jedi/plugins/typeshed.py: the stub overlay of the import resolver

    A shallow embedding of the typeshed plugin: the stub directory locator,
    the stub index builder and its per-version cache, the wrapper around the
    import resolver, and the name filter of stub-backed modules.

    Python values are modelled as follows.
    - [str] is [string], the bytes of the text in UTF-8 (a file name that is
      not UTF-8 keeps its bytes, as under [surrogateescape]); the decimal
      digits of the Unicode database of the interpreter are a parameter;
    - [dict] with [str] keys is [gmap string _]; the class attribute
      [_version_cache] is a [gmap (Z * Z) _] threaded through the calls;
    - an exception is the [Raise] case of [result];
    - a generator is the list of what it yields, or the exception it raises:
      its only consumer here is a [for] loop that lets the exception through;
    - the filesystem is a record of the three queries the module makes
      ([os.listdir], [os.path.isdir], [os.path.isfile]), passed explicitly
      because the directory tree may differ from one call to the next. *)

From stdpp Require Import base option list gmap strings.
From Stdlib Require Import ZArith Ascii String Lia.

Open Scope string_scope.
Open Scope Z_scope.

(** ** Exceptions *)

(** The subclasses of [OSError] that a directory listing or the opening of
    a file raises. *)
Inductive OSErr : Type :=
| FileNotFoundError
| NotADirectoryError
| IsADirectoryError
| PermissionError.

Inductive Exn : Type :=
| OSError (e : OSErr)
| IndexError
| AttributeError
| AssertionError.

Inductive result (A : Type) : Type :=
| Ok (a : A)
| Raise (e : Exn).
Arguments Ok {A} a.
Arguments Raise {A} e.

(** Sequencing: an exception raised by the first computation is raised by
    the whole ([x ← r; k] is stdpp's notation for [mbind]). *)
#[export] Instance result_bind : MBind result := fun A B k r =>
  match r with
  | Ok a => k a
  | Raise e => Raise e
  end.

#[export] Instance result_ret : MRet result := fun A a => Ok a.

(** ** Unicode *)

(** The decimal digits (category [Nd]) that the Unicode database of the
    interpreter has beyond ASCII.  They come in runs of ten consecutive code
    points, from the digit zero to the digit nine: the table holds the code
    point of the zero of each run.  The database differs from one version of
    Python to the next, so the table is a parameter. *)
Class UnicodeDecimals : Type := decimal_zeros : list N.

(** The value of the low six bits of a continuation byte. *)
Definition continuation (c : ascii) : option N :=
  let b := N_of_ascii c in
  if ((128 <=? b) && (b <? 192))%N then Some (b - 128)%N else None.

(** The code point encoded at the head of a string of bytes, and the bytes
    after it; [None] when no well-formed UTF-8 sequence starts there (such
    bytes are no digits, a dot or a newline for [re]). *)
Definition utf8_head (l : list ascii) : option (N * list ascii) :=
  match l with
  | [] => None
  | c1 :: l1 =>
      let b1 := N_of_ascii c1 in
      if (b1 <? 128)%N then Some (b1, l1)
      else if (b1 <? 194)%N then None
      else if (b1 <? 224)%N then
        match l1 with
        | c2 :: l2 =>
            x2 ← continuation c2;
            Some (((b1 - 192) * 64 + x2)%N, l2)
        | _ => None
        end
      else if (b1 <? 240)%N then
        match l1 with
        | c2 :: c3 :: l3 =>
            x2 ← continuation c2;
            x3 ← continuation c3;
            let cp := ((b1 - 224) * 4096 + x2 * 64 + x3)%N in
            if ((cp <? 2048) || ((55296 <=? cp) && (cp <? 57344)))%N
            then None else Some (cp, l3)
        | _ => None
        end
      else if (b1 <? 245)%N then
        match l1 with
        | c2 :: c3 :: c4 :: l4 =>
            x2 ← continuation c2;
            x3 ← continuation c3;
            x4 ← continuation c4;
            let cp := ((b1 - 240) * 262144 + x2 * 4096 + x3 * 64 + x4)%N in
            if ((cp <? 65536) || (1114111 <? cp))%N
            then None else Some (cp, l4)
        | _ => None
        end
      else None
  end.

(** The value of a code point as a decimal digit, for [\d] and [int]: the
    ASCII digits, and the ten code points of each run of the table. *)
Definition decimal_value `{!UnicodeDecimals} (cp : N) : option Z :=
  if (cp <? 128)%N then
    if ((48 <=? cp) && (cp <=? 57))%N then Some (Z.of_N cp - 48) else None
  else
    match List.find (fun zero => ((128 <=? zero) && (zero <=? cp) && (cp <? zero + 10))%N)
                    decimal_zeros with
    | Some zero => Some (Z.of_N cp - Z.of_N zero)
    | None => None
    end.

(** The decimal digit at the head of a string of bytes: its value, and the
    bytes after it. *)
Definition decimal_head `{!UnicodeDecimals} (l : list ascii) : option (Z * list ascii) :=
  '(cp, rest) ← utf8_head l;
  v ← decimal_value cp;
  Some (v, rest).

(** ** Strings *)

Module Str.

Definition chars (s : string) : list ascii := list_ascii_of_string s.
Definition of_chars (l : list ascii) : string := string_of_list_ascii l.

Fixpoint is_prefix (p l : list ascii) : bool :=
  match p, l with
  | [], _ => true
  | a :: p', b :: l' => if Ascii.eqb a b then is_prefix p' l' else false
  | _ :: _, [] => false
  end.

(** [s.startswith(p)] *)
Definition startswith (s p : string) : bool := is_prefix (chars p) (chars s).

(** [s.endswith(p)] *)
Definition endswith (s p : string) : bool :=
  is_prefix (rev (chars p)) (rev (chars s)).

Definition mem (c : ascii) (set : list ascii) : bool :=
  existsb (Ascii.eqb c) set.

Fixpoint drop_in (set l : list ascii) : list ascii :=
  match l with
  | c :: l' => if mem c set then drop_in set l' else l
  | [] => []
  end.

(** [s.rstrip(set)]: the characters of [set] are removed from the right
    end of [s], one by one, until a character outside [set] is met. *)
Definition rstrip (s set : string) : string :=
  of_chars (rev (drop_in (chars set) (rev (chars s)))).

(** [\d+] at the head of [l]: the values of the longest run of decimal
    digits, and the bytes that follow it.  A digit takes at least one byte,
    so the length of [l] is fuel enough. *)
Fixpoint span_digits_fuel `{!UnicodeDecimals} (fuel : nat) (l : list ascii)
  : list Z * list ascii :=
  match fuel with
  | O => ([], l)
  | S fuel' =>
      match decimal_head l with
      | Some (v, rest) =>
          let '(vs, r) := span_digits_fuel fuel' rest in (v :: vs, r)
      | None => ([], l)
      end
  end.

Definition span_digits `{!UnicodeDecimals} (l : list ascii) : list Z * list ascii :=
  span_digits_fuel (List.length l) l.

(** [int(s)] for a string of decimal digits, given by their values. *)
Definition int (digits : list Z) : Z :=
  fold_left (fun acc d => 10 * acc + d) digits 0.

Definition digit_char (d : Z) : ascii := ascii_of_nat (Z.to_nat (48 + d)).

Fixpoint digits_of (fuel : nat) (n : Z) (acc : list ascii) : list ascii :=
  match fuel with
  | O => acc
  | S fuel' =>
      let acc' := digit_char (n mod 10) :: acc in
      if n <? 10 then acc' else digits_of fuel' (n / 10) acc'
  end.

(** [str(n)] for an integer; a number has no more decimal digits than
    binary ones. *)
Definition str (n : Z) : string :=
  let fuel := S (Z.to_nat (Z.log2 (Z.abs n))) in
  if n <? 0
  then String "-" (of_chars (digits_of fuel (- n) []))
  else of_chars (digits_of fuel n []).

End Str.

(** [os.path.join(a, b)] on POSIX paths. *)
Definition path_join (a b : string) : string :=
  if Str.startswith b "/" then b
  else if (String.eqb a "" || Str.endswith a "/")%bool then a ++ b
  else a ++ "/" ++ b.

(** [re.match(r'(\d+)\.(\d+)$', s)]: the digits of the two groups, by their
    values, when [s] matches.  The match starts at the first character; [$]
    accepts the end of the string and the position before a final newline. *)
Definition version_match `{!UnicodeDecimals} (s : string) : option (list Z * list Z) :=
  let '(g1, r1) := Str.span_digits (Str.chars s) in
  match g1, r1 with
  | _ :: _, "."%char :: r2 =>
      let '(g2, r3) := Str.span_digits r2 in
      match g2, r3 with
      | _ :: _, [] => Some (g1, g2)
      | _ :: _, ["010"%char] => Some (g1, g2)
      | _, _ => None
      end
  | _, _ => None
  end.

(** ** The filesystem *)

(** What the module asks of the operating system.  [os.listdir] raises an
    [OSError] for a path that is missing, is not a directory or may not be
    read; [os.path.isdir] and [os.path.isfile] never raise.  Paths are
    those the module forms, by joining the names of a listing under a
    directory; they hold no NUL character. *)
Record FileSystem : Type := {
  listdir : string -> OSErr + list string;
  isdir : string -> bool;
  isfile : string -> bool
}.

(** ** Generators *)

(** The values a generator yields, and the exception that ends it, if any. *)
Record generated (A : Type) : Type := {
  yielded : list A;
  raised : option Exn
}.
Arguments yielded {A} g.
Arguments raised {A} g.

Definition gen_of_list {A : Type} (l : list A) : generated A :=
  {| yielded := l; raised := None |}.

Definition gen_raise {A : Type} (e : Exn) : generated A :=
  {| yielded := []; raised := Some e |}.

(** [yield] each element of [l], then go on as [g]. *)
Definition gen_yield_then {A : Type} (l : list A) (g : generated A) : generated A :=
  {| yielded := l ++ yielded g; raised := raised g |}.

(** ** Stub Index Builder *)

(** [dict(pairs)]: a later pair replaces an earlier one with the same key. *)
Definition dict (pairs : list (string * string)) : gmap string string :=
  foldl (fun m kv => <[kv.1 := kv.2]> m) ∅ pairs.

(** What [generate] yields for one [entry] of the listing (lines 38-46). *)
Definition generate_entry (fs : FileSystem) (directory entry : string)
  : list (string * string) :=
  let path := path_join directory entry in
  if isdir fs path then
    let init := path_join path "__init__.pyi" in
    if isfile fs init then [(entry, init)] else []
  else if (Str.endswith entry ".pyi" && isfile fs path)%bool then
    let name := Str.rstrip entry ".pyi" in
    if negb (String.eqb name "__init__") then [(name, path)] else []
  else [].

(** The inner generator of [_create_stub_map]: nothing is yielded when the
    listing raises. *)
Definition generate (fs : FileSystem) (directory : string) : list (string * string) :=
  match listdir fs directory with
  | inl _ => []
  | inr listed => flat_map (generate_entry fs directory) listed
  end.

Definition _create_stub_map (fs : FileSystem) (directory : string)
  : gmap string string :=
  dict (generate fs directory).

(** [map_.update(d)]: the entries of [d] replace those of [map_]. *)
Definition update (map_ d : gmap string string) : gmap string string := d ∪ map_.

(** The loop of [_merge_create_stub_map] over the directories it has got. *)
Definition merge_loop (fs : FileSystem) (map_ : gmap string string)
    (directories : list string) : gmap string string :=
  foldl (fun map_ directory => update map_ (_create_stub_map fs directory))
        map_ directories.

(** [directories] is any iterable; an exception it raises while the loop
    draws from it ends the call, and the local [map_] is lost. *)
Definition _merge_create_stub_map (fs : FileSystem) (directories : generated string)
  : result (gmap string string) :=
  let map_ := merge_loop fs ∅ (yielded directories) in
  match raised directories with
  | Some e => Raise e
  | None => Ok map_
  end.

(** ** Stub Directory Locator *)

(** [version_info]: [major], [minor] and whatever fields follow them. *)
Record VersionInfo : Type := {
  major : Z;
  minor : Z;
  more : list Z
}.

(** The test of lines 58-61 on the name of an entry of a category, whatever
    the entry is: the pattern matches, the first group is the requested major
    and the second is at most the requested minor. *)
Definition version_entry `{!UnicodeDecimals} (version_info : VersionInfo) (entry : string) : bool :=
  match version_match entry with
  | Some (g1, g2) =>
      (Str.int g1 =? major version_info) && (Str.int g2 <=? minor version_info)
  | None => false
  end.

(** Lines 58-62, for one entry of the listing of a category. *)
Definition check_entry `{!UnicodeDecimals} (version_info : VersionInfo)
    (check_version_list : list string) (base_list_entry : string) : list string :=
  match version_match base_list_entry with
  | Some (g1, g2) =>
      if ((Str.int g1 =? major version_info) &&
          (Str.int g2 <=? minor version_info))%bool
      then check_version_list ++ [base_list_entry]
      else check_version_list
  | None => check_version_list
  end.

(** The outer loop, with the list [check_version_list] it carries from one
    category to the next. *)
Fixpoint typeshed_loop `{!UnicodeDecimals} (_TYPESHED_PATH : string) (fs : FileSystem)
    (version_info : VersionInfo) (bases : list string)
    (check_version_list : list string) : generated string :=
  match bases with
  | [] => gen_of_list []
  | base :: bases' =>
      let base := path_join _TYPESHED_PATH base in
      match listdir fs base with
      | inl e => gen_raise (OSError e)
      | inr base_list =>
          let check_version_list :=
            foldl (check_entry version_info) check_version_list base_list in
          gen_yield_then (map (path_join base) check_version_list)
            (typeshed_loop _TYPESHED_PATH fs version_info bases' check_version_list)
      end
  end.

Definition _get_typeshed_directories `{!UnicodeDecimals} (_TYPESHED_PATH : string) (fs : FileSystem)
    (version_info : VersionInfo) : generated string :=
  typeshed_loop _TYPESHED_PATH fs version_info ["stdlib"; "third_party"]
    ["2and3"; Str.str (major version_info)].

(** ** Stub Index Cache *)

(** The class attribute [TypeshedPlugin._version_cache]. *)
Abbreviation VersionCache := (gmap (Z * Z) (gmap string string)).

(** Code that reads and writes [_version_cache] and may raise.  The cache is
    returned in both cases: an exception does not undo an assignment. *)
Definition M (A : Type) : Type := VersionCache -> result A * VersionCache.

#[export] Instance M_ret : MRet M := fun A a c => (Ok a, c).

#[export] Instance M_bind : MBind M := fun A B k m c =>
  match m c with
  | (Ok a, c') => k a c'
  | (Raise e, c') => (Raise e, c')
  end.

Definition lift {A : Type} (r : result A) : M A := fun c => (r, c).

(** [version_info[:2]] *)
Definition version_key (version_info : VersionInfo) : Z * Z :=
  (major version_info, minor version_info).

Definition _cache_stub_file_map `{!UnicodeDecimals} (_TYPESHED_PATH : string) (fs : FileSystem)
    (version_info : VersionInfo) : M (gmap string string) :=
  fun _version_cache =>
    let version := version_key version_info in
    match _version_cache !! version with
    | Some file_set => (Ok file_set, _version_cache)
    | None =>
        match _merge_create_stub_map fs
                (_get_typeshed_directories _TYPESHED_PATH fs version_info) with
        | Ok file_set => (Ok file_set, <[version := file_set]> _version_cache)
        | Raise e => (Raise e, _version_cache)
        end
    end.

(** ** Contexts *)

(** A syntax tree, as the parser hands it out. *)
Inductive Node : Type := node (id : N).

(** The evaluator, as far as this module uses it: the version of its
    grammar, and the outcome of [evaluator.parse(path=path, cache=True)],
    which raises when the file cannot be opened.  [_load_stub] is that call
    behind the decorator [evaluator_function_cache]; the field stands for
    what the decorated function gives at the time of the call. *)
Record Evaluator : Type := {
  grammar_version_info : VersionInfo;
  parse : string -> result Node
}.

Definition _load_stub (evaluator : Evaluator) (path : string) : result Node :=
  parse evaluator path.

(** The context classes.  [ModuleStubContext], [ClassStubContext] and
    [FunctionStubContext] are subclasses of [ModuleContext], [ClassContext]
    and [FunctionContext]; [OtherContext] stands for every other class of
    the engine (instances, compiled objects, ...). *)
#[warnings="-register-all"] Inductive Context : Type :=
| ModuleContext (evaluator : Evaluator) (module_node : Node) (path : string)
    (code_lines : list string)
| ModuleStubContext (evaluator : Evaluator) (stub_module_node : Node)
    (path : string) (code_lines : list string)
    (actual_context : Context) (parent_module_context : option Context)
| ClassContext (evaluator : Evaluator) (parent_context : Context) (tree_node : Node)
| ClassStubContext (evaluator : Evaluator) (parent_context : Context) (tree_node : Node)
| FunctionContext (evaluator : Evaluator) (parent_context : Context) (tree_node : Node)
| FunctionStubContext (evaluator : Evaluator) (parent_context : Context) (tree_node : Node)
| OtherContext (evaluator : Evaluator) (id : N).

(** [c.evaluator] *)
Definition evaluator_of (c : Context) : Evaluator :=
  match c with
  | ModuleContext e _ _ _ | ModuleStubContext e _ _ _ _ _
  | ClassContext e _ _ | ClassStubContext e _ _
  | FunctionContext e _ _ | FunctionStubContext e _ _
  | OtherContext e _ => e
  end.

(** [isinstance(c, ModuleStubContext)] *)
Definition is_ModuleStubContext (c : option Context) : bool :=
  match c with
  | Some (ModuleStubContext _ _ _ _ _ _) => true
  | _ => false
  end.

(** [c.actual_context]: an attribute of [ModuleStubContext] only. *)
Definition actual_context_of (c : Context) : result Context :=
  match c with
  | ModuleStubContext _ _ _ _ actual_context _ => Ok actual_context
  | _ => Raise AttributeError
  end.

(** A [ContextSet], in the order of its iteration.  Contexts are compared by
    identity; those the wrapper builds are new objects, one for each element
    it iterates over. *)
Abbreviation ContextSet := (list Context).

(** ** Import Resolution Interceptor *)

(** What [wrapper] returns: the [ModuleContext] of line 134 is returned as
    it is, not inside a [ContextSet]. *)
Inductive Returned : Type :=
| ReturnContext (c : Context)
| ReturnContextSet (cs : ContextSet).

(** The inner resolver, and the wrappers around it. *)
Definition Resolver (R : Type) : Type :=
  Evaluator -> list string -> option Context -> list string -> R.

(** The third argument of the call of [callback] (lines 101-103). *)
Definition callback_parent (parent_module_context : option Context) : option Context :=
  match parent_module_context with
  | Some (ModuleStubContext _ _ _ _ actual_context _) => Some actual_context
  | _ => parent_module_context
  end.

(** Lines 107-111: the index to consult, [None] when there is none. *)
Definition wrapper_map `{!UnicodeDecimals} (_TYPESHED_PATH : string) (fs : FileSystem)
    (py__path__ : Context -> list string)
    (evaluator : Evaluator) (import_names : list string) (import_name : string)
    (parent_module_context : option Context) : M (option (gmap string string)) :=
  if ((List.length import_names =? 1)%nat && negb (String.eqb import_name "typing"))%bool
  then
    map_ ← _cache_stub_file_map _TYPESHED_PATH fs (grammar_version_info evaluator);
    mret (Some map_)
  else
    match parent_module_context with
    | Some (ModuleStubContext _ _ _ _ _ _ as parent) =>
        map_ ← lift (_merge_create_stub_map fs (gen_of_list (py__path__ parent)));
        mret (Some map_)
    | _ => mret None
    end.

(** [TypeshedPlugin.import_module(callback)].  [py__path__] is the method of
    that name of the parent context, [fs] the directory tree at the time of
    the call. *)
Definition import_module `{!UnicodeDecimals} (_TYPESHED_PATH : string) (fs : FileSystem)
    (py__path__ : Context -> list string)
    (callback : Resolver ContextSet) : Resolver (M Returned) :=
  fun evaluator import_names parent_module_context sys_path =>
    let context_set :=
      callback evaluator import_names
        (callback_parent parent_module_context) sys_path in
    import_name ← lift (from_option Ok (Raise IndexError) (last import_names));
    map_ ← wrapper_map _TYPESHED_PATH fs py__path__ evaluator import_names
             import_name parent_module_context;
    match map_ ≫= (.!! import_name) with
    | Some path =>
        match _load_stub evaluator path with
        | Raise (OSError FileNotFoundError) => mret (ReturnContextSet context_set)
        | Raise e => lift (Raise e)
        | Ok stub_module_node =>
            let code_lines := [] in
            match context_set with
            | [] =>
                mret (ReturnContext
                        (ModuleContext evaluator stub_module_node path code_lines))
            | _ :: _ =>
                mret (ReturnContextSet
                        (map (fun context =>
                                ModuleStubContext evaluator stub_module_node path
                                  code_lines context parent_module_context)
                             context_set))
            end
        end
    | None => mret (ReturnContextSet context_set)
    end.

(** ** Names *)

(** A name leaf of a syntax tree: its text, its position, the type of the
    node [name.get_definition()] returns ([None] when it returns [None]) and
    the type of [name.parent]. *)
Record TreeName : Type := {
  value : string;
  start_pos : nat * nat;
  definition_type : option string;
  parent_type : string
}.

(** The names a filter hands out.  [TreeNameDefinition] and its subclass
    [StubName] derive from [AbstractTreeName]; [OtherName] stands for the
    name classes that do not, and keeps what their [infer] returns. *)
Inductive Name : Type :=
| TreeNameDefinition (parent_context : Context) (tree_name : TreeName)
| StubName (parent_context : Context) (tree_name : TreeName)
    (_stub_parent_context : Context) (_stub_tree_name : TreeName)
| OtherName (string_name : string) (inferred : ContextSet).

(** [StubName.__init__]: the base class is initialised with
    [parent_context.actual_context]. *)
Definition StubName_init (parent_context : Context) (tree_name : TreeName)
    (stub_parent_context : Context) (stub_tree_name : TreeName) : result Name :=
  actual_context ← actual_context_of parent_context;
  mret (StubName actual_context tree_name stub_parent_context stub_tree_name).

(** The inner generator [iterate] of [StubName.infer];
    [isinstance(c, FunctionContext)] holds for the subclass too. *)
Definition iterate (contexts : ContextSet) : ContextSet :=
  map (fun c =>
         match c with
         | FunctionContext evaluator parent_context tree_node
         | FunctionStubContext evaluator parent_context tree_node =>
             FunctionStubContext evaluator parent_context tree_node
         | _ => c
         end) contexts.

(** [jedi.evaluate.syntax_tree.tree_name_to_contexts], the engine's
    inference of a name of a syntax tree in a context. *)
Definition Inference : Type := Evaluator -> Context -> TreeName -> ContextSet.

Definition StubName_infer (tree_name_to_contexts : Inference)
    (parent_context stub_parent_context : Context) (stub_tree_name : TreeName)
  : ContextSet :=
  let contexts :=
    tree_name_to_contexts (evaluator_of parent_context)
      stub_parent_context stub_tree_name in
  iterate contexts.

(** Modelled from the spec: [TreeNameDefinition.infer], of
    [jedi.evaluate.filters], is not in this file.  Its inferential target is
    its own declaration: the name is inferred in its own parent context. *)
Definition TreeNameDefinition_infer (tree_name_to_contexts : Inference)
    (parent_context : Context) (tree_name : TreeName) : ContextSet :=
  tree_name_to_contexts (evaluator_of parent_context) parent_context tree_name.

(** [name.infer()] *)
Definition infer (tree_name_to_contexts : Inference) (name : Name) : ContextSet :=
  match name with
  | TreeNameDefinition parent_context tree_name =>
      TreeNameDefinition_infer tree_name_to_contexts parent_context tree_name
  | StubName parent_context _ stub_parent_context stub_tree_name =>
      StubName_infer tree_name_to_contexts parent_context
        stub_parent_context stub_tree_name
  | OtherName _ inferred => inferred
  end.

(** Where "go to definition" lands: the attributes [parent_context] and
    [tree_name] of an [AbstractTreeName]. *)
Definition goto_target (name : Name) : option (Context * TreeName) :=
  match name with
  | TreeNameDefinition parent_context tree_name
  | StubName parent_context tree_name _ _ => Some (parent_context, tree_name)
  | OtherName _ _ => None
  end.

(** ** Merged Name Filter *)

(** A [StubParserTreeFilter]: its [context], [_search_global], the wrapped
    [_non_stub_filter] through its method [get], and the method
    [_is_name_reachable] it inherits from [ParserTreeFilter]. *)
Record StubParserTreeFilter : Type := {
  context : Context;
  _search_global : bool;
  _non_stub_filter_get : string -> list Name;
  super_is_name_reachable : TreeName -> bool
}.

(** The body of the loop of [_convert_names] for one [name]. *)
Definition convert_name (self : StubParserTreeFilter) (name : TreeName)
  : result (list Name) :=
  let found_actual_names := _non_stub_filter_get self (value name) in
  let stub_only :=
    match found_actual_names with
    | [] => [TreeNameDefinition (context self) name]
    | _ :: _ => []
    end in
  merged ← mapM (fun non_stub_name =>
                   match non_stub_name with
                   | TreeNameDefinition parent_context tree_name
                   | StubName parent_context tree_name _ _ =>
                       StubName_init parent_context tree_name (context self) name
                   | OtherName _ _ => Raise AssertionError
                   end) found_actual_names;
  mret (stub_only ++ merged)%list.

(** [_convert_names], a generator made a list by [to_list]. *)
Definition _convert_names (self : StubParserTreeFilter) (names : list TreeName)
  : result (list Name) :=
  groups ← mapM (convert_name self) names;
  mret (List.concat groups).

Definition _check_flows (self : StubParserTreeFilter) (names : list TreeName)
  : list TreeName := names.

Definition _is_name_reachable (self : StubParserTreeFilter) (name : TreeName)
  : result bool :=
  if negb (super_is_name_reachable self name) then Ok false
  else if negb (_search_global self) then
    match definition_type name with
    | None => Raise AttributeError
    | Some type =>
        if ((String.eqb type "import_from" || String.eqb type "import_name") &&
            negb (String.eqb (parent_type name) "import_as_name" ||
                  String.eqb (parent_type name) "dotted_as_name"))%bool
        then Ok false
        else Ok true
    end
  else Ok true.

(** Modelled from the spec: [ParserTreeFilter._filter], of
    [jedi.evaluate.filters], is not in this file.  The names a filter
    enumerates are those [_is_name_reachable] accepts, passed through
    [_check_flows]. *)
Definition _filter (self : StubParserTreeFilter) (names : list TreeName)
  : result (list TreeName) :=
  keep ← mapM (fun name =>
                 reachable ← _is_name_reachable self name;
                 mret (if reachable : bool then [name] else [])) names;
  mret (_check_flows self (List.concat keep)).

(** ** The uses of the plugin over the life of the process *)

(** The two entries through which [_version_cache] is reached: a request for
    the index of a version, and a call of the wrapped resolver. *)
Inductive Request : Type :=
| RequestIndex (_TYPESHED_PATH : string) (fs : FileSystem) (version_info : VersionInfo)
| RequestImport (_TYPESHED_PATH : string) (fs : FileSystem)
    (py__path__ : Context -> list string) (callback : Resolver ContextSet)
    (evaluator : Evaluator) (import_names : list string)
    (parent_module_context : option Context) (sys_path : list string).

(** The cache after a request, whether the request returns or raises. *)
Definition serve `{!UnicodeDecimals} (request : Request) (cache : VersionCache) : VersionCache :=
  match request with
  | RequestIndex tp fs version_info =>
      snd (_cache_stub_file_map tp fs version_info cache)
  | RequestImport tp fs py__path__ callback evaluator import_names parent sys_path =>
      snd (import_module tp fs py__path__ callback evaluator import_names
             parent sys_path cache)
  end.

Definition serve_all `{!UnicodeDecimals} (requests : list Request) (cache : VersionCache) : VersionCache :=
  foldl (fun cache request => serve request cache) cache requests.

(** ** Directory trees *)

(** A directory tree given by the list of its paths, to run the module on:
    a path that is not listed does not exist. *)
Inductive Entry : Type :=
| RegularFile
| Directory (names : list string)
| LockedDirectory.

Definition find_entry (tree : list (string * Entry)) (path : string) : option Entry :=
  snd <$> List.find (fun kv => String.eqb (fst kv) path) tree.

Definition tree_fs (tree : list (string * Entry)) : FileSystem := {|
  listdir path :=
    match find_entry tree path with
    | None => inl FileNotFoundError
    | Some RegularFile => inl NotADirectoryError
    | Some (Directory names) => inr names
    | Some LockedDirectory => inl PermissionError
    end;
  isdir path :=
    match find_entry tree path with
    | Some (Directory _) | Some LockedDirectory => true
    | _ => false
    end;
  isfile path :=
    match find_entry tree path with
    | Some RegularFile => true
    | _ => false
    end
|}.

(** ** The Locator in the words of the specification *)

(** The qualifiers added for a category: the immediate subdirectories whose
    name has the form major.minor, with the requested major and a minor that
    is not above the requested one. *)
Definition spec_version_subdirectories `{!UnicodeDecimals} (fs : FileSystem) (version_info : VersionInfo)
    (base : string) (base_list : list string) : list string :=
  List.filter
    (fun entry =>
       isdir fs (path_join base entry) &&
       match version_match entry with
       | Some (g1, g2) =>
           (Str.int g1 =? major version_info) && (Str.int g2 <=? minor version_info)
       | None => false
       end)%bool
    base_list.

(** The directories of the specification for the listings [stdlib_list] and
    [third_party_list] of the two categories. *)
Definition spec_typeshed_directories `{!UnicodeDecimals} (_TYPESHED_PATH : string) (fs : FileSystem)
    (version_info : VersionInfo) (stdlib_list third_party_list : list string)
  : list string :=
  let stdlib := path_join _TYPESHED_PATH "stdlib" in
  let third_party := path_join _TYPESHED_PATH "third_party" in
  let qualifiers1 :=
    (["2and3"; Str.str (major version_info)] ++
     spec_version_subdirectories fs version_info stdlib stdlib_list)%list in
  let qualifiers2 :=
    (qualifiers1 ++
     spec_version_subdirectories fs version_info third_party third_party_list)%list in
  (map (path_join stdlib) qualifiers1 ++ map (path_join third_party) qualifiers2)%list.

(** ** Inputs of the examples *)

(** Version 3.7; the category [stdlib] holds a generic directory and a
    directory [3.7], each with a package [alpha]. *)
Definition alpha_tree : list (string * Entry) :=
  [ ("/ts/stdlib", Directory ["2and3"; "3.7"]);
    ("/ts/stdlib/2and3", Directory ["alpha"]);
    ("/ts/stdlib/2and3/alpha", Directory ["__init__.pyi"]);
    ("/ts/stdlib/2and3/alpha/__init__.pyi", RegularFile);
    ("/ts/stdlib/3.7", Directory ["alpha"]);
    ("/ts/stdlib/3.7/alpha", Directory ["__init__.pyi"]);
    ("/ts/stdlib/3.7/alpha/__init__.pyi", RegularFile);
    ("/ts/third_party", Directory ["2and3"]);
    ("/ts/third_party/2and3", Directory []) ].

Definition v37 : VersionInfo := {| major := 3; minor := 7; more := [] |}.

(** The category [stdlib] holds a regular file named [3.6]. *)
Definition plain_file_tree : list (string * Entry) :=
  [ ("/ts/stdlib", Directory ["2and3"; "3.6"]);
    ("/ts/stdlib/2and3", Directory []);
    ("/ts/stdlib/3.6", RegularFile);
    ("/ts/third_party", Directory ["2and3"]);
    ("/ts/third_party/2and3", Directory []) ].

(** A directory with the stub of the module [copy]. *)
Definition copy_tree : list (string * Entry) :=
  [ ("/stubs", Directory ["copy.pyi"]);
    ("/stubs/copy.pyi", RegularFile) ].

(** A stub repository without the category [third_party]. *)
Definition no_third_party_tree : list (string * Entry) :=
  [ ("/ts", Directory ["stdlib"]);
    ("/ts/stdlib", Directory ["2and3"]);
    ("/ts/stdlib/2and3", Directory []) ].

(** An evaluator for version 3.7 whose parser opens the stub files given. *)
Definition evaluator_with (files : list (string * Node)) : Evaluator := {|
  grammar_version_info := v37;
  parse path :=
    match List.find (fun kv => String.eqb (fst kv) path) files with
    | Some kv => Ok (snd kv)
    | None => Raise (OSError FileNotFoundError)
    end
|}.

Definition alpha_stub : string := "/ts/stdlib/3.7/alpha/__init__.pyi".

Definition ev37 : Evaluator :=
  evaluator_with [(alpha_stub, node 7); ("/ts/stdlib/3.7/alpha/typing.pyi", node 9)].

(** The same evaluator once the stub files have been removed. *)
Definition ev37_removed : Evaluator := evaluator_with [].

(** The module [alpha] of the source tree, and the resolver that finds it. *)
Definition concrete_alpha (evaluator : Evaluator) : Context :=
  ModuleContext evaluator (node 1) "/src/alpha/__init__.py" [].

Definition resolver_alpha : Resolver ContextSet :=
  fun evaluator import_names _ _ =>
    match import_names with
    | ["alpha"] => [concrete_alpha evaluator]
    | _ => []
    end.

(** The stub-backed module [alpha], and its search path. *)
Definition overlaid_alpha (evaluator : Evaluator) : Context :=
  ModuleStubContext evaluator (node 7) alpha_stub []
    (concrete_alpha evaluator) None.

Definition alpha_path : Context -> list string :=
  fun _ => ["/ts/stdlib/3.7/alpha"].

(** The package [alpha] with a stub [typing.pyi] inside. *)
Definition typing_tree : list (string * Entry) :=
  [ ("/ts/stdlib/3.7/alpha", Directory ["__init__.pyi"; "typing.pyi"]);
    ("/ts/stdlib/3.7/alpha/__init__.pyi", RegularFile);
    ("/ts/stdlib/3.7/alpha/typing.pyi", RegularFile) ].

(** A resolver that tells by its result which parent context it was given:
    none, a stub-backed module, or another context. *)
Definition resolver_probe : Resolver ContextSet :=
  fun evaluator _ parent _ =>
    match parent with
    | None => [OtherContext evaluator 0]
    | Some (ModuleStubContext _ _ _ _ _ _) => [OtherContext evaluator 1]
    | Some _ => [OtherContext evaluator 2]
    end.

(** Names of a stub: [Y] from [from m import Y], [Y] from
    [from m import Y as Y], and [X] from an assignment. *)
Definition name_Y_bare : TreeName :=
  {| value := "Y"; start_pos := (1%nat, 14%nat);
     definition_type := Some "import_from"; parent_type := "import_from" |}.

Definition name_Y_alias : TreeName :=
  {| value := "Y"; start_pos := (1%nat, 19%nat);
     definition_type := Some "import_from"; parent_type := "import_as_name" |}.

Definition name_X : TreeName :=
  {| value := "X"; start_pos := (2%nat, 0%nat);
     definition_type := Some "expr_stmt"; parent_type := "expr_stmt" |}.

(** The declaration of [X] in the source of [alpha]. *)
Definition concrete_X : TreeName :=
  {| value := "X"; start_pos := (40%nat, 4%nat);
     definition_type := Some "funcdef"; parent_type := "funcdef" |}.

(** The filter of the stub-backed module [alpha]; the wrapped filter knows
    one declaration of [X]. *)
Definition alpha_filter (search_global : bool) : StubParserTreeFilter := {|
  context := overlaid_alpha ev37;
  _search_global := search_global;
  _non_stub_filter_get name :=
    if String.eqb name "X"
    then [TreeNameDefinition (overlaid_alpha ev37) concrete_X]
    else [];
  super_is_name_reachable _ := true
|}.

(** An inference that finds a function for every name. *)
Definition infer_function : Inference :=
  fun evaluator context _ => [FunctionContext evaluator context (node 3)].

(** ** Auxiliary notions of the further properties *)

(** The last character of [s] is one of the characters of [set]. *)
Definition last_char_in (s set : string) : bool :=
  match rev (Str.chars s) with
  | c :: _ => Str.mem c (Str.chars set)
  | [] => false
  end.

(** A directory with a standalone stub and a package. *)
Definition socket_tree : list (string * Entry) :=
  [ ("/stubs", Directory ["socket.pyi"; "os"; "README"]);
    ("/stubs/socket.pyi", RegularFile);
    ("/stubs/os", Directory ["__init__.pyi"; "path.pyi"]);
    ("/stubs/os/__init__.pyi", RegularFile);
    ("/stubs/os/path.pyi", RegularFile);
    ("/stubs/README", RegularFile) ].

(** A stub repository whose category [third_party] may not be read. *)
Definition locked_third_party_tree : list (string * Entry) :=
  [ ("/ts/stdlib", Directory ["2and3"; "3.5"; "3.7"; "3.8"]);
    ("/ts/stdlib/2and3", Directory ["alpha"]);
    ("/ts/stdlib/2and3/alpha", Directory ["__init__.pyi"]);
    ("/ts/stdlib/2and3/alpha/__init__.pyi", RegularFile);
    ("/ts/third_party", LockedDirectory) ].

(** A stub repository in which both categories hold a stub of [alpha]. *)
Definition both_categories_tree : list (string * Entry) :=
  [ ("/ts/stdlib", Directory ["2and3"; "3.7"]);
    ("/ts/stdlib/3.7", Directory ["alpha.pyi"]);
    ("/ts/stdlib/3.7/alpha.pyi", RegularFile);
    ("/ts/third_party", Directory ["2and3"]);
    ("/ts/third_party/2and3", Directory ["alpha"; "beta.pyi"]);
    ("/ts/third_party/2and3/alpha", Directory ["__init__.pyi"]);
    ("/ts/third_party/2and3/alpha/__init__.pyi", RegularFile);
    ("/ts/third_party/2and3/beta.pyi", RegularFile) ].

Definition v35 : VersionInfo := {| major := 3; minor := 5; more := [] |}.

(** An evaluator whose parser may not read any file. *)
Definition ev37_locked : Evaluator :=
  {| grammar_version_info := v37; parse _ := Raise (OSError PermissionError) |}.

(** The module of a stub alone. *)
Definition stub_only_alpha (evaluator : Evaluator) : Context :=
  ModuleContext evaluator (node 7) alpha_stub [].

(** The stub declaration an entry of the filter infers from: the context
    and the tree name that [infer] hands to [tree_name_to_contexts]. *)
Definition inferred_from (name : Name) : option (Context * TreeName) :=
  match name with
  | TreeNameDefinition parent_context tree_name => Some (parent_context, tree_name)
  | StubName _ _ stub_parent_context stub_tree_name =>
      Some (stub_parent_context, stub_tree_name)
  | OtherName _ _ => None
  end.

(** ** Stub-Backed Context Types *)

(** A filter of the default chain of a module, known by its method [get]. *)
Record DefaultFilter : Type := {
  default_get : string -> list Name
}.

(** The filters a stub-backed module hands out. *)
Inductive Filter : Type :=
| WrappedFilter (f : StubParserTreeFilter)
| PlainFilter (f : DefaultFilter).

(** [ModuleStubContext.get_filters].  [filters] is what the method of the
    base class yields for the same arguments, and [reachable] the method
    [_is_name_reachable] of a [ParserTreeFilter] made for [self] with
    [until_position] and [origin_scope].  With no filter in the default chain
    [next(filters)] raises [StopIteration] inside the generator, which ends
    it or is turned into a [RuntimeError], depending on the version of
    Python: [None] stands for both. *)
Definition get_filters (self : Context) (filters : list DefaultFilter)
    (reachable : TreeName -> bool) (search_global : bool) : option (list Filter) :=
  match filters with
  | [] => None
  | first :: rest =>
      Some (WrappedFilter
              {| context := self;
                 _search_global := search_global;
                 _non_stub_filter_get := default_get first;
                 super_is_name_reachable := reachable |}
            :: map PlainFilter rest)
  end.

(** The default filter of the stub-backed module [alpha]: its names are tree
    names in that module. *)
Definition alpha_default_filter : DefaultFilter :=
  {| default_get name :=
       if String.eqb name "X"
       then [TreeNameDefinition (overlaid_alpha ev37) concrete_X]
       else [] |}.

(** A filter that hands out a name that is no tree name. *)
Definition compiled_filter : StubParserTreeFilter := {|
  context := overlaid_alpha ev37;
  _search_global := false;
  _non_stub_filter_get name := [OtherName name []];
  super_is_name_reachable _ := true
|}.

(** A filter of the default chain that knows no name. *)
Definition empty_default_filter : DefaultFilter := {| default_get _ := [] |}.

(** The wrapped filter finds the declaration of [X] of the source of
    [alpha], in the module of that source. *)
Definition concrete_declaration_filter : StubParserTreeFilter := {|
  context := overlaid_alpha ev37;
  _search_global := false;
  _non_stub_filter_get name :=
    if String.eqb name "X"
    then [TreeNameDefinition (concrete_alpha ev37) concrete_X]
    else [];
  super_is_name_reachable _ := true
|}.

(** The decimal digits of Unicode 14.0 beyond ASCII, by the zero of each
    run: the table of the examples. *)
Definition unicode_decimals : UnicodeDecimals :=
  [ 0x660; 0x6f0; 0x7c0; 0x966; 0x9e6; 0xa66; 0xae6; 0xb66; 0xbe6; 0xc66;
    0xce6; 0xd66; 0xde6; 0xe50; 0xed0; 0xf20; 0x1040; 0x1090; 0x17e0; 0x1810;
    0x1946; 0x19d0; 0x1a80; 0x1a90; 0x1b50; 0x1bb0; 0x1c40; 0x1c50; 0xa620;
    0xa8d0; 0xa900; 0xa9d0; 0xa9f0; 0xaa50; 0xabf0; 0xff10; 0x104a0; 0x10d30;
    0x11066; 0x110f0; 0x11136; 0x111d0; 0x112f0; 0x11450; 0x114d0; 0x11650;
    0x116c0; 0x11730; 0x118e0; 0x11950; 0x11c50; 0x11d50; 0x11da0; 0x16a60;
    0x16ac0; 0x16b50; 0x1d7ce; 0x1d7d8; 0x1d7e2; 0x1d7ec; 0x1d7f6; 0x1e140;
    0x1e2f0; 0x1e950; 0x1fbf0 ]%N.

(** The name of Arabic-Indic digits three, dot, six, in UTF-8. *)
Definition arabic_3_6 : string :=
  Str.of_chars ["217"; "163"; "."; "217"; "166"]%char.

(** * Properties *)

Section Properties.

Context {unicode : UnicodeDecimals}.

(** ** Stub Directory Locator *)

Lemma foldl_check_entry (version_info : VersionInfo) (base_list qualifiers : list string) :
  foldl (check_entry version_info) qualifiers base_list =
  (qualifiers ++ List.filter (version_entry version_info) base_list)%list.
Proof.
  revert qualifiers.
  induction base_list as [|entry base_list IH]; intros qualifiers; simpl.
  - by rewrite app_nil_r.
  - rewrite IH. unfold check_entry, version_entry.
    destruct (version_match entry) as [[g1 g2]|]; [|done].
    destruct (_ && _)%bool; [|done].
    by rewrite <- app_assoc.
Qed.

Lemma typeshed_directories_listed (tp : string) (fs : FileSystem)
    (version_info : VersionInfo) (l1 l2 : list string) :
  listdir fs (path_join tp "stdlib") = inr l1 ->
  listdir fs (path_join tp "third_party") = inr l2 ->
  _get_typeshed_directories tp fs version_info =
  gen_of_list
    (let q1 := (["2and3"; Str.str (major version_info)] ++
                List.filter (version_entry version_info) l1)%list in
     let q2 := (q1 ++ List.filter (version_entry version_info) l2)%list in
     (map (path_join (path_join tp "stdlib")) q1 ++
      map (path_join (path_join tp "third_party")) q2)%list).
Proof.
  intros H1 H2. unfold _get_typeshed_directories. cbn [typeshed_loop].
  rewrite H1, H2. rewrite !foldl_check_entry.
  unfold gen_yield_then, gen_of_list. cbn [yielded raised].
  by rewrite app_nil_r.
Qed.

Lemma typeshed_directories_raise (tp : string) (fs : FileSystem)
    (version_info : VersionInfo) :
  raised (_get_typeshed_directories tp fs version_info) = None <->
  (exists l1, listdir fs (path_join tp "stdlib") = inr l1) /\
  (exists l2, listdir fs (path_join tp "third_party") = inr l2).
Proof.
  unfold _get_typeshed_directories. cbn [typeshed_loop].
  destruct (listdir fs (path_join tp "stdlib")) as [e1|l1] eqn:H1.
  - cbn. split; [intros ?; discriminate | intros [[? ?] _]; discriminate].
  - destruct (listdir fs (path_join tp "third_party")) as [e2|l2] eqn:H2.
    + cbn. split; [intros ?; discriminate | intros [_ [? ?]]; discriminate].
    + cbn. split; [eauto | reflexivity].
Qed.

(** C4 (as amended).  When both categories can be listed, the Locator yields,
    for the category [stdlib] and then for [third_party], one path per
    qualifier of a single running list joined under the category.  The list
    starts as ["2and3"; str(major)]; before the paths of a category are
    yielded it receives, in listing order, every entry of that category, of
    whatever kind, that the pattern accepts with the requested major and a
    minor not above the requested one.  The list is not reset: the entries
    accepted under [stdlib] are yielded under [third_party] too. *)
Theorem typeshed_directories_order (tp : string) (fs : FileSystem)
    (version_info : VersionInfo) (l1 l2 : list string) :
  listdir fs (path_join tp "stdlib") = inr l1 ->
  listdir fs (path_join tp "third_party") = inr l2 ->
  let stdlib := path_join tp "stdlib" in
  let third_party := path_join tp "third_party" in
  let q1 := (["2and3"; Str.str (major version_info)] ++
             List.filter (version_entry version_info) l1)%list in
  let q2 := (q1 ++ List.filter (version_entry version_info) l2)%list in
  _get_typeshed_directories tp fs version_info =
    gen_of_list (map (path_join stdlib) q1 ++ map (path_join third_party) q2)%list /\
  (forall q, q ∈ List.filter (version_entry version_info) l1 ->
             path_join third_party q ∈
               yielded (_get_typeshed_directories tp fs version_info)).
Proof.
  intros H1 H2 stdlib third_party q1 q2.
  pose proof (typeshed_directories_listed tp fs version_info l1 l2 H1 H2) as Heq.
  split; [exact Heq|].
  intros q Hq. rewrite Heq. cbn [gen_of_list yielded].
  apply elem_of_app. right.
  apply list_elem_of_fmap. exists q. split; [done|].
  subst q2 q1. rewrite !elem_of_app. left. right. exact Hq.
Qed.

(** ** Stub Index Builder *)

Lemma lookup_update (map_ d : gmap string string) (k : string) :
  update map_ d !! k =
  match d !! k with
  | Some p => Some p
  | None => map_ !! k
  end.
Proof.
  unfold update. rewrite lookup_union.
  destruct (d !! k), (map_ !! k); reflexivity.
Qed.

Lemma merge_loop_app (fs : FileSystem) (map_ : gmap string string)
    (l1 l2 : list string) :
  merge_loop fs map_ (l1 ++ l2) = merge_loop fs (merge_loop fs map_ l1) l2.
Proof. unfold merge_loop. apply foldl_app. Qed.

Lemma merge_loop_absent (fs : FileSystem) (k : string) (l : list string) :
  (forall d, d ∈ l -> _create_stub_map fs d !! k = None) ->
  forall map_, merge_loop fs map_ l !! k = map_ !! k.
Proof.
  induction l as [|d l IH]; intros Habsent map_; [reflexivity|].
  cbn. fold (merge_loop fs (update map_ (_create_stub_map fs d)) l).
  rewrite IH.
  - rewrite lookup_update, Habsent; [reflexivity | left].
  - intros d' Hd'. apply Habsent. by right.
Qed.

Lemma create_stub_map_unlisted (fs : FileSystem) (directory : string) (e : OSErr) :
  listdir fs directory = inl e -> _create_stub_map fs directory = ∅.
Proof.
  intros H. unfold _create_stub_map, generate. rewrite H. reflexivity.
Qed.

(** C8.  The merged index of a sequence of directories is the result of
    applying the mapping of each directory in turn to an empty index, and a
    name holds the path given by the last directory of the sequence that
    registers it. *)
Theorem merge_override_by_recency (fs : FileSystem) (directories : generated string)
    (before after : list string) (directory N path : string) :
  raised directories = None ->
  yielded directories = (before ++ directory :: after)%list ->
  _create_stub_map fs directory !! N = Some path ->
  (forall later, later ∈ after -> _create_stub_map fs later !! N = None) ->
  exists map_ : gmap string string,
    _merge_create_stub_map fs directories = Ok map_ /\
    map_ = foldl (fun acc d => _create_stub_map fs d ∪ acc) ∅ (yielded directories) /\
    map_ !! N = Some path.
Proof.
  intros Hraised Hyielded Hreg Hlater.
  exists (merge_loop fs ∅ (yielded directories)).
  unfold _merge_create_stub_map. rewrite Hraised.
  split; [reflexivity|]. split; [reflexivity|].
  rewrite Hyielded, merge_loop_app. cbn.
  fold (merge_loop fs (update (merge_loop fs ∅ before) (_create_stub_map fs directory)) after).
  rewrite merge_loop_absent by exact Hlater.
  by rewrite lookup_update, Hreg.
Qed.

(** C5 (the code at the failing input).  The stub [copy.pyi] is registered
    under [co]: [rstrip] removes the characters of [.pyi] from the right end
    for as long as it meets one, here the [y] and the [p] of the stem too.
    The name [copy] is not in the mapping. *)
Theorem create_stub_map_strips_characters :
  let fs := tree_fs copy_tree in
  isfile fs "/stubs/copy.pyi" = true /\
  _create_stub_map fs "/stubs" = {[ "co" := "/stubs/copy.pyi" ]} /\
  _create_stub_map fs "/stubs" !! "copy" = None.
Proof.
  intros fs.
  assert (Hmap : _create_stub_map fs "/stubs" = {[ "co" := "/stubs/copy.pyi" ]})
    by reflexivity.
  split; [reflexivity|]. split; [exact Hmap|].
  rewrite Hmap. apply lookup_singleton_ne. discriminate.
Qed.

(** C6 (as amended).  No exception comes out of [_create_stub_map]: the
    index of a directory that cannot be listed is empty, and so is the merged
    index of directories none of which can be listed.  The Locator raises
    nothing exactly when both categories can be listed (it raises the error
    of the listing otherwise); when it raises nothing, the request for the
    index of the version succeeds, whatever directories are missing or
    unreadable below the categories. *)
Theorem stub_index_degrades (tp : string) (fs : FileSystem)
    (version_info : VersionInfo) :
  (forall directory e,
     listdir fs directory = inl e -> _create_stub_map fs directory = ∅) /\
  (forall directories,
     (forall d, d ∈ directories -> exists e, listdir fs d = inl e) ->
     _merge_create_stub_map fs (gen_of_list directories) = Ok ∅) /\
  (raised (_get_typeshed_directories tp fs version_info) = None <->
   (exists l1, listdir fs (path_join tp "stdlib") = inr l1) /\
   (exists l2, listdir fs (path_join tp "third_party") = inr l2)) /\
  (raised (_get_typeshed_directories tp fs version_info) = None ->
   forall cache, exists map_ cache',
     _cache_stub_file_map tp fs version_info cache = (Ok map_, cache')).
Proof.
  split; [apply create_stub_map_unlisted|].
  split; [|split; [apply typeshed_directories_raise|]].
  - intros directories Hall. unfold _merge_create_stub_map. cbn.
    f_equal. induction directories as [|d directories IH]; [reflexivity|].
    cbn. destruct (Hall d) as [e He]; [left|].
    rewrite (create_stub_map_unlisted fs d e He).
    unfold update. rewrite (left_id_L ∅ (∪)).
    apply IH. intros d' Hd'. apply Hall. by right.
  - intros Hraised cache. unfold _cache_stub_file_map, _merge_create_stub_map.
    destruct (cache !! version_key version_info) as [file_set|]; [eauto|].
    rewrite Hraised. eauto.
Qed.

(** ** Stub Index Cache *)

Lemma cache_stub_file_map_stored (tp : string) (fs : FileSystem)
    (version_info : VersionInfo) (cache cache1 : VersionCache)
    (map_ : gmap string string) :
  _cache_stub_file_map tp fs version_info cache = (Ok map_, cache1) ->
  cache1 !! version_key version_info = Some map_.
Proof.
  unfold _cache_stub_file_map.
  destruct (cache !! version_key version_info) as [file_set|] eqn:Hhit.
  - intros [= <- <-]. exact Hhit.
  - destruct (_merge_create_stub_map _ _) as [file_set|e]; [|discriminate].
    intros [= <- <-]. apply lookup_insert_eq.
Qed.

Lemma cache_stub_file_map_hit (tp : string) (fs : FileSystem)
    (version_info : VersionInfo) (cache : VersionCache)
    (map_ : gmap string string) :
  cache !! version_key version_info = Some map_ ->
  _cache_stub_file_map tp fs version_info cache = (Ok map_, cache).
Proof. intros Hhit. unfold _cache_stub_file_map. by rewrite Hhit. Qed.

Lemma cache_stub_file_map_keeps (tp : string) (fs : FileSystem)
    (version_info : VersionInfo) (cache : VersionCache)
    (key : Z * Z) (map_ : gmap string string) :
  cache !! key = Some map_ ->
  snd (_cache_stub_file_map tp fs version_info cache) !! key = Some map_.
Proof.
  intros Hkey. unfold _cache_stub_file_map.
  destruct (cache !! version_key version_info) as [file_set|] eqn:Hhit; [exact Hkey|].
  destruct (_merge_create_stub_map _ _) as [file_set|e]; [|exact Hkey].
  cbn. rewrite lookup_insert_ne; [exact Hkey|].
  intros Heq. rewrite Heq in Hhit. congruence.
Qed.

Lemma wrapper_map_keeps (tp : string) (fs : FileSystem)
    (py__path__ : Context -> list string) (evaluator : Evaluator)
    (import_names : list string) (import_name : string)
    (parent : option Context) (cache : VersionCache)
    (key : Z * Z) (map_ : gmap string string) :
  cache !! key = Some map_ ->
  snd (wrapper_map tp fs py__path__ evaluator import_names import_name parent cache)
    !! key = Some map_.
Proof.
  intros Hkey. unfold wrapper_map.
  destruct (_ && _)%bool.
  - pose proof (cache_stub_file_map_keeps tp fs (grammar_version_info evaluator)
                  cache key map_ Hkey) as Hkeep.
    unfold mbind, M_bind, mret, M_ret.
    destruct (_cache_stub_file_map _ _ _ _) as [[file_set|e] cache']; exact Hkeep.
  - destruct parent as [[]|]; exact Hkey.
Qed.

Lemma import_module_cache (tp : string) (fs : FileSystem)
    (py__path__ : Context -> list string) (callback : Resolver ContextSet)
    (evaluator : Evaluator) (import_names : list string)
    (parent : option Context) (sys_path : list string) (cache : VersionCache) :
  snd (import_module tp fs py__path__ callback evaluator import_names parent
         sys_path cache) = cache \/
  exists import_name,
    snd (import_module tp fs py__path__ callback evaluator import_names parent
           sys_path cache) =
    snd (wrapper_map tp fs py__path__ evaluator import_names import_name parent cache).
Proof.
  unfold import_module, mbind, M_bind, lift.
  destruct (last import_names) as [import_name|]; cbn [from_option]; [|by left].
  right. exists import_name.
  destruct (wrapper_map _ _ _ _ _ _ _ _) as [[[map_|]|e] cache']; cbn;
    try reflexivity.
  destruct (map_ !! import_name) as [path|]; cbn; [|reflexivity].
  destruct (_load_stub evaluator path) as [stub_module_node|[[]| | |]]; cbn;
    try reflexivity.
  destruct (callback _ _ _ _); reflexivity.
Qed.

Lemma serve_keeps (request : Request) (cache : VersionCache)
    (key : Z * Z) (map_ : gmap string string) :
  cache !! key = Some map_ -> serve request cache !! key = Some map_.
Proof.
  intros Hkey. destruct request as [tp fs v|tp fs py cb ev names parent sp]; cbn.
  - by apply cache_stub_file_map_keeps.
  - destruct (import_module_cache tp fs py cb ev names parent sp cache)
      as [-> | [import_name ->]]; [exact Hkey|].
    by apply wrapper_map_keeps.
Qed.

Lemma serve_all_keeps (requests : list Request) (cache : VersionCache)
    (key : Z * Z) (map_ : gmap string string) :
  cache !! key = Some map_ -> serve_all requests cache !! key = Some map_.
Proof.
  revert cache. induction requests as [|request requests IH]; intros cache Hkey.
  - exact Hkey.
  - cbn. apply IH. by apply serve_keeps.
Qed.

(** C9.  Once a request for the index of a version has returned, every
    request with the same (major, minor) returns that index and leaves the
    cache as it is, whatever the directory tree has become: nothing is
    listed and nothing is built.  No later request, for any version and on
    any directory tree, and no call of the wrapped resolver removes or
    replaces the index stored for the version. *)
Theorem stub_index_cached (tp : string) (fs : FileSystem)
    (version_info : VersionInfo) (cache cache1 : VersionCache)
    (map_ : gmap string string) :
  _cache_stub_file_map tp fs version_info cache = (Ok map_, cache1) ->
  (forall tp' fs' version_info',
     version_key version_info' = version_key version_info ->
     _cache_stub_file_map tp' fs' version_info' cache1 = (Ok map_, cache1)) /\
  (forall requests tp' fs' version_info',
     version_key version_info' = version_key version_info ->
     serve_all requests cache1 !! version_key version_info = Some map_ /\
     fst (_cache_stub_file_map tp' fs' version_info' (serve_all requests cache1))
       = Ok map_).
Proof.
  intros Hfirst.
  pose proof (cache_stub_file_map_stored _ _ _ _ _ _ Hfirst) as Hstored.
  split.
  - intros tp' fs' version_info' Hversion.
    apply cache_stub_file_map_hit. by rewrite Hversion.
  - intros requests tp' fs' version_info' Hversion.
    pose proof (serve_all_keeps requests cache1 _ _ Hstored) as Hkept.
    split; [exact Hkept|].
    rewrite (cache_stub_file_map_hit tp' fs' version_info' _ map_);
      [reflexivity | by rewrite Hversion].
Qed.

(** ** Import Resolution Interceptor *)

Lemma import_module_run (tp : string) (fs : FileSystem)
    (py__path__ : Context -> list string) (callback : Resolver ContextSet)
    (evaluator : Evaluator) (import_names : list string) (import_name : string)
    (parent : option Context) (sys_path : list string) (cache cache' : VersionCache)
    (map_ : option (gmap string string)) :
  last import_names = Some import_name ->
  wrapper_map tp fs py__path__ evaluator import_names import_name parent cache
    = (Ok map_, cache') ->
  import_module tp fs py__path__ callback evaluator import_names parent sys_path cache =
  let context_set :=
    callback evaluator import_names (callback_parent parent) sys_path in
  match map_ ≫= (.!! import_name) with
  | Some path =>
      match _load_stub evaluator path with
      | Raise (OSError FileNotFoundError) => (Ok (ReturnContextSet context_set), cache')
      | Raise e => (Raise e, cache')
      | Ok stub_module_node =>
          match context_set with
          | [] =>
              (Ok (ReturnContext (ModuleContext evaluator stub_module_node path [])),
               cache')
          | _ :: _ =>
              (Ok (ReturnContextSet
                     (map (fun context =>
                             ModuleStubContext evaluator stub_module_node path []
                               context parent) context_set)), cache')
          end
      end
  | None => (Ok (ReturnContextSet context_set), cache')
  end.
Proof.
  intros Hlast Hmap. unfold import_module, mbind, M_bind, lift.
  rewrite Hlast. cbn [from_option]. rewrite Hmap. cbv zeta.
  destruct map_ as [map_|]; cbn; [|reflexivity].
  destruct (map_ !! import_name) as [path|]; cbn; [|reflexivity].
  destruct (_load_stub evaluator path) as [stub_module_node|[[]| | |]]; cbn;
    try reflexivity.
  destruct (callback _ _ _ _); reflexivity.
Qed.

Lemma wrapper_map_none (tp : string) (fs : FileSystem)
    (py__path__ : Context -> list string) (evaluator : Evaluator)
    (import_names : list string) (import_name : string)
    (parent : option Context) (cache : VersionCache) :
  is_ModuleStubContext parent = false ->
  (import_name = "typing" \/ List.length import_names <> 1%nat) ->
  wrapper_map tp fs py__path__ evaluator import_names import_name parent cache
    = (Ok None, cache).
Proof.
  intros Hparent Hnames. unfold wrapper_map.
  assert (((List.length import_names =? 1)%nat &&
           negb (String.eqb import_name "typing"))%bool = false) as ->.
  { destruct Hnames as [-> | Hlen].
    - by rewrite andb_false_r.
    - apply Nat.eqb_neq in Hlen. by rewrite Hlen. }
  destruct parent as [[]|]; try reflexivity. discriminate Hparent.
Qed.

(** C1.  When the index consulted holds a stub path for the last component
    of the import and the document of that path is obtained: with no
    concrete candidate the wrapper returns one [ModuleContext] built from the
    stub document, no [ModuleStubContext]; with concrete candidates it
    returns one [ModuleStubContext] for each, in their order, all with the
    same stub document and the same stub path, each paired with its
    candidate. *)
Theorem import_stub_found (tp : string) (fs : FileSystem)
    (py__path__ : Context -> list string) (callback : Resolver ContextSet)
    (evaluator : Evaluator) (import_names : list string) (import_name : string)
    (parent : option Context) (sys_path : list string) (cache cache' : VersionCache)
    (map_ : gmap string string) (path : string) (stub_module_node : Node) :
  last import_names = Some import_name ->
  wrapper_map tp fs py__path__ evaluator import_names import_name parent cache
    = (Ok (Some map_), cache') ->
  map_ !! import_name = Some path ->
  _load_stub evaluator path = Ok stub_module_node ->
  let concrete := callback evaluator import_names (callback_parent parent) sys_path in
  (concrete = [] ->
   import_module tp fs py__path__ callback evaluator import_names parent sys_path cache
     = (Ok (ReturnContext (ModuleContext evaluator stub_module_node path [])), cache')) /\
  (concrete <> [] ->
   exists overlaid,
     import_module tp fs py__path__ callback evaluator import_names parent sys_path cache
       = (Ok (ReturnContextSet overlaid), cache') /\
     Forall2 (fun candidate module =>
                module = ModuleStubContext evaluator stub_module_node path []
                           candidate parent)
             concrete overlaid).
Proof.
  intros Hlast Hmap Hpath Hload concrete.
  rewrite (import_module_run _ _ _ _ _ _ _ _ _ _ _ _ Hlast Hmap).
  cbn [mbind option_bind]. rewrite Hpath, Hload. cbv zeta. fold concrete.
  split.
  - intros ->. reflexivity.
  - intros Hne. destruct concrete as [|candidate candidates] eqn:E; [done|].
    eexists. split; [reflexivity|].
    clear. generalize (candidate :: candidates) as l.
    induction l; constructor; auto.
Qed.

(** C3 (as amended).  The wrapper returns the result set of the inner
    resolver as it is, and raises nothing, in each of these cases: the import
    path is the single component [typing] and the parent context is not
    stub-backed; the import path has several components and the parent
    context is not stub-backed; an index was consulted and does not hold the
    last component; an index was consulted and holds a path for the last
    component, and the request for the document of that path raises
    [FileNotFoundError]. *)
Theorem import_without_stub (tp : string) (fs : FileSystem)
    (py__path__ : Context -> list string) (callback : Resolver ContextSet)
    (evaluator : Evaluator) (import_names : list string) (import_name : string)
    (parent : option Context) (sys_path : list string) (cache : VersionCache) :
  last import_names = Some import_name ->
  (import_names = ["typing"] /\ is_ModuleStubContext parent = false) \/
  ((1 < List.length import_names)%nat /\ is_ModuleStubContext parent = false) \/
  (exists map_ cache',
     wrapper_map tp fs py__path__ evaluator import_names import_name parent cache
       = (Ok (Some map_), cache') /\
     (map_ !! import_name = None \/
      exists path, map_ !! import_name = Some path /\
                   _load_stub evaluator path = Raise (OSError FileNotFoundError))) ->
  import_module tp fs py__path__ callback evaluator import_names parent sys_path cache =
    (Ok (ReturnContextSet
           (callback evaluator import_names (callback_parent parent) sys_path)),
     snd (wrapper_map tp fs py__path__ evaluator import_names import_name parent cache)).
Proof.
  intros Hlast [[Hnames Hparent] | [[Hlen Hparent] | (map_ & cache' & Hmap & Hstub)]].
  - assert (import_name = "typing") as ->.
    { rewrite Hnames in Hlast. by injection Hlast. }
    pose proof (wrapper_map_none tp fs py__path__ evaluator import_names "typing"
                  parent cache Hparent (or_introl eq_refl)) as Hmap.
    rewrite (import_module_run _ _ _ _ _ _ _ _ _ _ _ _ Hlast Hmap), Hmap.
    reflexivity.
  - assert (Hmap : wrapper_map tp fs py__path__ evaluator import_names import_name
                     parent cache = (Ok None, cache)).
    { apply wrapper_map_none; [exact Hparent | right; lia]. }
    rewrite (import_module_run _ _ _ _ _ _ _ _ _ _ _ _ Hlast Hmap), Hmap.
    reflexivity.
  - rewrite (import_module_run _ _ _ _ _ _ _ _ _ _ _ _ Hlast Hmap), Hmap.
    cbn [mbind option_bind snd].
    destruct Hstub as [-> | (path & -> & ->)]; reflexivity.
Qed.

(** C10.  The outcome of the wrapper depends on the inner resolver only
    through its result at one tuple of arguments: the evaluator, the import
    path and the search path as the wrapper received them, and as parent
    context the concrete counterpart of the parent when the parent is a
    stub-backed module, the parent itself otherwise.  That result is what
    the wrapper works on: a result set it returns is the inner result set or
    its overlay, one module for each inner result, and a single module is
    returned only when the inner result set is empty. *)
Theorem inner_resolver_arguments (tp : string) (fs : FileSystem)
    (py__path__ : Context -> list string) (callback : Resolver ContextSet)
    (evaluator : Evaluator) (import_names : list string)
    (parent : option Context) (sys_path : list string) (cache : VersionCache) :
  let inner_parent :=
    match parent with
    | Some (ModuleStubContext _ _ _ _ actual_context _) => Some actual_context
    | _ => parent
    end in
  let inner := callback evaluator import_names inner_parent sys_path in
  (forall callback' : Resolver ContextSet,
     callback' evaluator import_names inner_parent sys_path = inner ->
     import_module tp fs py__path__ callback' evaluator import_names parent
       sys_path cache =
     import_module tp fs py__path__ callback evaluator import_names parent
       sys_path cache) /\
  (forall returned cache',
     import_module tp fs py__path__ callback evaluator import_names parent
       sys_path cache = (Ok returned, cache') ->
     match returned with
     | ReturnContextSet cs =>
         cs = inner \/
         exists stub_module_node path,
           cs = map (fun context =>
                       ModuleStubContext evaluator stub_module_node path []
                         context parent) inner
     | ReturnContext _ => inner = []
     end).
Proof.
  intros inner_parent inner.
  change inner_parent with (callback_parent parent) in *.
  split.
  - intros callback' Hsame. unfold import_module. rewrite Hsame. reflexivity.
  - intros returned cache'. unfold import_module, mbind, M_bind, lift.
    destruct (last import_names) as [import_name|]; cbn [from_option];
      [|discriminate].
    destruct (wrapper_map _ _ _ _ _ _ _ _) as [[[map_|]|e] cache'']; cbn;
      [| |discriminate].
    + destruct (map_ !! import_name) as [path|]; cbn.
      * destruct (_load_stub evaluator path) as [stub_module_node|[[]| | |]]; cbn;
          try discriminate.
        -- fold inner. destruct inner as [|c cs] eqn:E.
           ++ intros [= <- _]. reflexivity.
           ++ intros [= <- _]. right. eauto.
        -- intros [= <- _]. by left.
      * intros [= <- _]. by left.
    + intros [= <- _]. by left.
Qed.

(** ** Merged Name Filter *)

Lemma mapM_Ok {A B : Type} (f : A -> result B) (l : list A) (k : list B) :
  mapM f l = Ok k <-> Forall2 (fun x y => f x = Ok y) l k.
Proof.
  revert k. induction l as [|x l IH]; intros k; cbn.
  - split.
    + intros [= <-]. constructor.
    + intros H. inversion H. reflexivity.
  - unfold mbind, result_bind, mret, result_ret.
    destruct (f x) as [y|e] eqn:Hx.
    + destruct (mapM f l) as [k'|e] eqn:Hl.
      * split.
        -- intros [= <-]. constructor; [exact Hx | by apply IH].
        -- intros H. inversion H as [|? ? ? ? Hy Hk]; subst.
           apply IH in Hk. congruence.
      * split; [discriminate|].
        intros H. inversion H as [|? ? ? ? Hy Hk]; subst.
        apply IH in Hk. discriminate.
    + split; [discriminate|].
      intros H. inversion H as [|? ? ? ? Hy Hk]; subst. congruence.
Qed.

Lemma mapM_total {A B : Type} (f : A -> result B) (l : list A) :
  (forall x, x ∈ l -> exists y, f x = Ok y) -> exists k, mapM f l = Ok k.
Proof.
  induction l as [|x l IH]; intros Hall.
  - exists []. reflexivity.
  - destruct (Hall x) as [y Hy]; [left|].
    destruct IH as [k Hk]; [intros x' Hx'; apply Hall; by right|].
    exists (y :: k). apply mapM_Ok. constructor; [exact Hy | by apply mapM_Ok].
Qed.

Lemma elem_of_concat {A : Type} (x : A) (ls : list (list A)) :
  x ∈ List.concat ls <-> exists l, l ∈ ls /\ x ∈ l.
Proof.
  induction ls as [|l ls IH]; cbn.
  - split; [intros H; by apply elem_of_nil in H|].
    intros (l & H & _). by apply elem_of_nil in H.
  - rewrite elem_of_app, IH. split.
    + intros [H | (l' & Hl' & Hx)].
      * exists l. split; [left | exact H].
      * exists l'. split; [by right | exact Hx].
    + intros (l' & Hl' & Hx). apply elem_of_cons in Hl' as [-> | Hl'].
      * by left.
      * right. eauto.
Qed.

Lemma is_name_reachable_global (self : StubParserTreeFilter) (name : TreeName) :
  _search_global self = true ->
  _is_name_reachable self name = Ok (super_is_name_reachable self name).
Proof.
  intros Hglobal. unfold _is_name_reachable. rewrite Hglobal.
  destruct (super_is_name_reachable self name); reflexivity.
Qed.

Lemma is_name_reachable_bare_import (self : StubParserTreeFilter) (name : TreeName) :
  _search_global self = false ->
  (definition_type name = Some "import_from" \/
   definition_type name = Some "import_name") ->
  parent_type name <> "import_as_name" ->
  parent_type name <> "dotted_as_name" ->
  _is_name_reachable self name = Ok false.
Proof.
  intros Hglobal Hdef Has Hdotted. unfold _is_name_reachable. rewrite Hglobal.
  destruct (super_is_name_reachable self name); [|reflexivity]. cbn.
  apply String.eqb_neq in Has, Hdotted. rewrite Has, Hdotted.
  destruct Hdef as [-> | ->]; reflexivity.
Qed.

Lemma is_name_reachable_alias (self : StubParserTreeFilter) (name : TreeName)
    (type : string) :
  _search_global self = false ->
  definition_type name = Some type ->
  (parent_type name = "import_as_name" \/ parent_type name = "dotted_as_name") ->
  _is_name_reachable self name = Ok (super_is_name_reachable self name).
Proof.
  intros Hglobal Hdef Halias. unfold _is_name_reachable. rewrite Hglobal, Hdef.
  destruct (super_is_name_reachable self name); [|reflexivity]. cbn.
  destruct Halias as [-> | ->]; cbn; by rewrite ?andb_false_r.
Qed.

Lemma filter_enumerated (self : StubParserTreeFilter) (names enumerated : list TreeName) :
  _filter self names = Ok enumerated ->
  forall name, name ∈ enumerated <->
               name ∈ names /\ _is_name_reachable self name = Ok true.
Proof.
  unfold _filter, _check_flows, mbind, result_bind, mret, result_ret.
  destruct (mapM _ names) as [keep|e] eqn:Hkeep; [|discriminate].
  intros [= <-] name. apply mapM_Ok in Hkeep. clear -Hkeep.
  induction Hkeep as [|n k names keep Hn Hrest IH]; cbn.
  - split; [intros H; by apply elem_of_nil in H|].
    intros [H _]. by apply elem_of_nil in H.
  - rewrite elem_of_app, IH, elem_of_cons.
    unfold mbind, result_bind, mret, result_ret in Hn.
    destruct (_is_name_reachable self n) as [[|]|e] eqn:Hreach;
      try discriminate; injection Hn as <-.
    + rewrite list_elem_of_singleton. split.
      * intros [-> | [Hin Hr]]; [split; [by left | exact Hreach] | split; [by right | exact Hr]].
      * intros [[-> | Hin] Hr]; [by left | right; by split].
    + split.
      * intros [H | [Hin Hr]]; [by apply elem_of_nil in H | split; [by right | exact Hr]].
      * intros [[-> | Hin] Hr]; [congruence | right; by split].
Qed.

(** C7.  In a stub scope enumerated for module attributes ([_search_global]
    false), a name all of whose declarations are imports without an alias
    (the definition is an [import_from] or an [import_name], the parent of
    the name neither an [import_as_name] nor a [dotted_as_name]) is rejected
    by [_is_name_reachable] and absent from the enumeration.  With
    [_search_global] true the enumeration is that of the inherited check
    alone.  A declaration under an alias passes whenever the inherited check
    passes, and is then present in the enumeration. *)
Theorem bare_import_visibility (self : StubParserTreeFilter)
    (names : list TreeName) (Y : string) :
  (_search_global self = false ->
   (forall name, name ∈ names -> value name = Y ->
      (definition_type name = Some "import_from" \/
       definition_type name = Some "import_name") /\
      parent_type name <> "import_as_name" /\
      parent_type name <> "dotted_as_name") ->
   (forall name, name ∈ names -> value name = Y ->
      _is_name_reachable self name = Ok false) /\
   (forall enumerated, _filter self names = Ok enumerated ->
      forall name, name ∈ enumerated -> value name <> Y)) /\
  (_search_global self = true ->
   _filter self names = Ok (List.filter (super_is_name_reachable self) names)) /\
  (_search_global self = false ->
   forall name type, name ∈ names ->
     definition_type name = Some type ->
     (parent_type name = "import_as_name" \/ parent_type name = "dotted_as_name") ->
     _is_name_reachable self name = Ok (super_is_name_reachable self name) /\
     (super_is_name_reachable self name = true ->
      forall enumerated, _filter self names = Ok enumerated -> name ∈ enumerated)).
Proof.
  split; [|split].
  - intros Hglobal Hbare.
    assert (Hrejected : forall name, name ∈ names -> value name = Y ->
              _is_name_reachable self name = Ok false).
    { intros name Hin HY. destruct (Hbare name Hin HY) as (Hdef & Has & Hdotted).
      by apply is_name_reachable_bare_import. }
    split; [exact Hrejected|].
    intros enumerated Hfilter name Hin HY.
    apply (filter_enumerated _ _ _ Hfilter) in Hin as [Hin Hreach].
    rewrite (Hrejected name Hin HY) in Hreach. discriminate.
  - intros Hglobal. unfold _filter, _check_flows.
    assert (Hkeep : mapM (fun name =>
                       reachable ← _is_name_reachable self name;
                       mret (if reachable : bool then [name] else [])) names
                    = Ok (map (fun name =>
                                 if super_is_name_reachable self name
                                 then [name] else []) names)).
    { apply mapM_Ok. induction names as [|n names IH]; constructor; [|exact IH].
      by rewrite is_name_reachable_global. }
    rewrite Hkeep. cbn. f_equal.
    clear. induction names as [|n names IH]; [reflexivity|]. cbn.
    destruct (super_is_name_reachable self n); cbn; by rewrite IH.
  - intros Hglobal name type Hin Hdef Halias.
    pose proof (is_name_reachable_alias self name type Hglobal Hdef Halias) as Hreach.
    split; [exact Hreach|].
    intros Hsuper enumerated Hfilter.
    apply (filter_enumerated _ _ _ Hfilter). split; [exact Hin|].
    by rewrite Hreach, Hsuper.
Qed.

Lemma iterate_converted (contexts : ContextSet) :
  Forall2 (fun inferred converted =>
             match inferred with
             | FunctionContext e p n | FunctionStubContext e p n =>
                 converted = FunctionStubContext e p n
             | _ => converted = inferred
             end) contexts (iterate contexts).
Proof.
  induction contexts as [|c contexts IH]; cbn; constructor; [|exact IH].
  destruct c; reflexivity.
Qed.

Lemma merged_found (self : StubParserTreeFilter) (name : TreeName) (found : list Name) :
  (forall non_stub_name, non_stub_name ∈ found ->
     exists parent_context tree_name,
       goto_target non_stub_name = Some (parent_context, tree_name) /\
       is_ModuleStubContext (Some parent_context) = true) ->
  exists merged,
    mapM (fun non_stub_name =>
            match non_stub_name with
            | TreeNameDefinition parent_context tree_name
            | StubName parent_context tree_name _ _ =>
                StubName_init parent_context tree_name (context self) name
            | OtherName _ _ => Raise AssertionError
            end) found = Ok merged /\
    Forall2 (fun non_stub_name entry =>
               exists parent_context tree_name actual,
                 goto_target non_stub_name = Some (parent_context, tree_name) /\
                 actual_context_of parent_context = Ok actual /\
                 entry = StubName actual tree_name (context self) name)
            found merged.
Proof.
  induction found as [|n found IH]; intros Hall.
  - exists []. split; [reflexivity | constructor].
  - destruct IH as (merged & Hmerged & Hrel);
      [intros n' Hn'; apply Hall; by right|].
    destruct (Hall n) as (pc & tn & Hgoto & Hstub); [left|].
    destruct pc as [| ? ? ? ? actual ? | | | | |]; try discriminate Hstub.
    exists (StubName actual tn (context self) name :: merged).
    split.
    + apply mapM_Ok. constructor; [|by apply mapM_Ok].
      destruct n; cbn in Hgoto; try discriminate; injection Hgoto as -> ->;
        reflexivity.
    + constructor; [|exact Hrel].
      eexists _, tn, actual. split; [exact Hgoto|]. split; reflexivity.
Qed.

(** The case in which [_convert_names] returns.  It emits, for each name of
    the stub scope in turn, one group of entries.  When the wrapped filter
    finds no declaration of that name the group is one entry whose
    navigational and inferential targets are both the stub declaration.  When
    it finds declarations, all of them tree names whose parent context is a
    stub-backed module, the group has one entry for each, in their order:
    "go to definition" lands on the tree name of that declaration, in the
    concrete counterpart of its parent context, and its inference is the
    inference of the stub name in the stub context, every function among the
    results made a [FunctionStubContext]. *)
Lemma merged_names (tree_name_to_contexts : Inference)
    (self : StubParserTreeFilter) (names : list TreeName) :
  (forall name non_stub_name,
     name ∈ names -> non_stub_name ∈ _non_stub_filter_get self (value name) ->
     exists parent_context tree_name,
       goto_target non_stub_name = Some (parent_context, tree_name) /\
       is_ModuleStubContext (Some parent_context) = true) ->
  exists groups,
    _convert_names self names = Ok (List.concat groups) /\
    Forall2
      (fun name group =>
         let found := _non_stub_filter_get self (value name) in
         (found = [] ->
          exists entry,
            group = [entry] /\
            goto_target entry = Some (context self, name) /\
            infer tree_name_to_contexts entry =
              tree_name_to_contexts (evaluator_of (context self)) (context self) name) /\
         (found <> [] ->
          Forall2
            (fun non_stub_name entry =>
               exists parent_context tree_name actual,
                 goto_target non_stub_name = Some (parent_context, tree_name) /\
                 actual_context_of parent_context = Ok actual /\
                 goto_target entry = Some (actual, tree_name) /\
                 Forall2
                   (fun inferred converted =>
                      match inferred with
                      | FunctionContext e p n | FunctionStubContext e p n =>
                          converted = FunctionStubContext e p n
                      | _ => converted = inferred
                      end)
                   (tree_name_to_contexts (evaluator_of actual) (context self) name)
                   (infer tree_name_to_contexts entry))
            found group))
      names groups.
Proof.
  intros Hwf.
  enough (exists groups,
            mapM (convert_name self) names = Ok groups /\
            Forall2
              (fun name group =>
                 let found := _non_stub_filter_get self (value name) in
                 (found = [] ->
                  exists entry,
                    group = [entry] /\
                    goto_target entry = Some (context self, name) /\
                    infer tree_name_to_contexts entry =
                      tree_name_to_contexts (evaluator_of (context self))
                        (context self) name) /\
                 (found <> [] ->
                  Forall2
                    (fun non_stub_name entry =>
                       exists parent_context tree_name actual,
                         goto_target non_stub_name = Some (parent_context, tree_name) /\
                         actual_context_of parent_context = Ok actual /\
                         goto_target entry = Some (actual, tree_name) /\
                         Forall2
                           (fun inferred converted =>
                              match inferred with
                              | FunctionContext e p n | FunctionStubContext e p n =>
                                  converted = FunctionStubContext e p n
                              | _ => converted = inferred
                              end)
                           (tree_name_to_contexts (evaluator_of actual)
                              (context self) name)
                           (infer tree_name_to_contexts entry))
                    found group))
              names groups) as (groups & Hrun & Hrel).
  { exists groups. split; [|exact Hrel].
    unfold _convert_names. rewrite Hrun. reflexivity. }
  induction names as [|name names IH].
  - exists []. split; [reflexivity | constructor].
  - destruct IH as (groups & Hrun & Hrel).
    { intros name' n Hname' Hn. apply (Hwf name' n); [by right | exact Hn]. }
    destruct (merged_found self name (_non_stub_filter_get self (value name)))
      as (merged & Hmerged & Hpairs).
    { intros n Hn. apply (Hwf name n); [left | exact Hn]. }
    exists (((match _non_stub_filter_get self (value name) with
              | [] => [TreeNameDefinition (context self) name]
              | _ :: _ => []
              end) ++ merged)%list :: groups).
    split.
    + apply mapM_Ok. constructor; [|by apply mapM_Ok].
      unfold convert_name. rewrite Hmerged. reflexivity.
    + constructor; [|exact Hrel]. cbv zeta. split.
      * intros Hnone. rewrite Hnone in Hpairs |- *.
        inversion Hpairs; subst. eexists. split; [reflexivity|].
        split; reflexivity.
      * intros Hsome.
        destruct (_non_stub_filter_get self (value name)) as [|n found];
          [done|]. cbn [app].
        eapply Forall2_impl; [exact Hpairs|].
        intros n' entry (pc & tn & actual & Hgoto & Hactual & ->).
        exists pc, tn, actual. split; [exact Hgoto|]. split; [exact Hactual|].
        split; [reflexivity|]. apply iterate_converted.
Qed.

(** C2 (the code at the failing input).  The wrapped filter finds for the
    stub name [X] the declaration of [X] in the module of the source, a plain
    [ModuleContext].  [StubName.__init__] reads the attribute
    [actual_context] of that context, which it has not: [_convert_names]
    raises [AttributeError] and emits no entry, where the docstring of
    [StubName] and the comment of lines 195-198 send the user to the
    declaration found. *)
Theorem convert_names_concrete_declaration :
  _non_stub_filter_get concrete_declaration_filter (value name_X) =
    [TreeNameDefinition (concrete_alpha ev37) concrete_X] /\
  actual_context_of (concrete_alpha ev37) = Raise AttributeError /\
  _convert_names concrete_declaration_filter [name_X] = Raise AttributeError.
Proof. repeat split; reflexivity. Qed.

(** * Further properties *)

(** ** Strings *)

Lemma chars_app (a b : string) :
  Str.chars (a ++ b) = (Str.chars a ++ Str.chars b)%list.
Proof.
  unfold Str.chars. induction a as [|c a IH]; simpl; [reflexivity|].
  f_equal. exact IH.
Qed.

Lemma chars_of_chars (l : list ascii) : Str.chars (Str.of_chars l) = l.
Proof. apply list_ascii_of_string_of_list_ascii. Qed.

Lemma of_chars_chars (s : string) : Str.of_chars (Str.chars s) = s.
Proof. apply string_of_list_ascii_of_string. Qed.

Lemma is_prefix_app (p l l' : list ascii) :
  Str.is_prefix p l = true -> Str.is_prefix p (l ++ l') = true.
Proof.
  revert l. induction p as [|a p IH]; intros [|b l]; cbn; try done.
  destruct (Ascii.eqb a b); [apply IH | done].
Qed.

Lemma is_prefix_refl (p l : list ascii) : Str.is_prefix p (p ++ l) = true.
Proof.
  induction p as [|a p IH]; cbn; [reflexivity|].
  by rewrite Ascii.eqb_refl.
Qed.

Lemma endswith_app (a b s : string) :
  Str.endswith b s = true -> Str.endswith (a ++ b) s = true.
Proof.
  unfold Str.endswith. rewrite chars_app, rev_app_distr. apply is_prefix_app.
Qed.

Lemma endswith_self (a s : string) : Str.endswith (a ++ s) s = true.
Proof.
  unfold Str.endswith. rewrite chars_app, rev_app_distr. apply is_prefix_refl.
Qed.

Lemma path_join_endswith (a b s : string) :
  Str.endswith b s = true -> Str.endswith (path_join a b) s = true.
Proof.
  intros H. unfold path_join.
  destruct (Str.startswith b "/"); [exact H|].
  destruct (_ || _)%bool.
  - by apply endswith_app.
  - apply endswith_app. by apply (endswith_app "/").
Qed.

Lemma drop_in_head (set l : list ascii) :
  match Str.drop_in set l with
  | c :: _ => Str.mem c set = false
  | [] => True
  end.
Proof.
  induction l as [|c l IH]; cbn; [done|].
  destruct (Str.mem c set) eqn:Hc; [exact IH | exact Hc].
Qed.

Lemma rstrip_last_char (s set : string) :
  last_char_in (Str.rstrip s set) set = false.
Proof.
  unfold last_char_in, Str.rstrip. rewrite chars_of_chars, rev_involutive.
  pose proof (drop_in_head (Str.chars set) (rev (Str.chars s))) as H.
  destruct (Str.drop_in _ _); [reflexivity | exact H].
Qed.

Lemma rstrip_pyi_stem (stem : string) :
  last_char_in stem ".pyi" = false ->
  Str.rstrip (stem ++ ".pyi") ".pyi" = stem.
Proof.
  unfold last_char_in, Str.rstrip. intros Hlast.
  rewrite chars_app, rev_app_distr. cbn.
  destruct (rev (Str.chars stem)) as [|c l] eqn:Hrev.
  - cbn. apply (f_equal (@rev ascii)) in Hrev. rewrite rev_involutive in Hrev.
    cbn in Hrev. rewrite <- (of_chars_chars stem), Hrev. reflexivity.
  - cbn [Str.drop_in]. change (Str.chars ".pyi") with [".";"p";"y";"i"]%char in Hlast.
    rewrite Hlast. rewrite <- Hrev, rev_involutive. apply of_chars_chars.
Qed.

(** ** Stub Index Builder, one directory *)

Lemma dict_fold_lookup (pairs : list (string * string)) (m : gmap string string)
    (k v : string) :
  foldl (fun m kv => <[kv.1 := kv.2]> m) m pairs !! k = Some v ->
  (k, v) ∈ pairs \/ m !! k = Some v.
Proof.
  revert m. induction pairs as [|[k' v'] pairs IH]; intros m; cbn; [by right|].
  intros H. apply IH in H as [H | H]; [left; by right|].
  destruct (decide (k' = k)) as [-> | Hne].
  - rewrite lookup_insert_eq in H. injection H as ->. left. left.
  - rewrite lookup_insert_ne in H by done. by right.
Qed.

Lemma dict_fold_absent (pairs : list (string * string)) (m : gmap string string)
    (k : string) :
  (forall kv, kv ∈ pairs -> kv.1 <> k) ->
  foldl (fun m kv => <[kv.1 := kv.2]> m) m pairs !! k = m !! k.
Proof.
  revert m. induction pairs as [|kv pairs IH]; intros m Habsent; cbn; [reflexivity|].
  rewrite IH by (intros kv' Hkv'; apply Habsent; by right).
  apply lookup_insert_ne. apply Habsent. left.
Qed.

Lemma dict_last (l1 l2 : list (string * string)) (k v : string) :
  (forall kv, kv ∈ l2 -> kv.1 <> k) ->
  dict (l1 ++ (k, v) :: l2) !! k = Some v.
Proof.
  intros Habsent. unfold dict. rewrite foldl_app. cbn.
  rewrite dict_fold_absent by exact Habsent. apply lookup_insert_eq.
Qed.

Lemma generate_entry_sound (fs : FileSystem) (directory entry name p : string) :
  (name, p) ∈ generate_entry fs directory entry ->
  (isdir fs (path_join directory entry) = true /\
   name = entry /\
   p = path_join (path_join directory entry) "__init__.pyi" /\
   isfile fs p = true) \/
  (isdir fs (path_join directory entry) = false /\
   Str.endswith entry ".pyi" = true /\
   isfile fs (path_join directory entry) = true /\
   name = Str.rstrip entry ".pyi" /\
   name <> "__init__" /\
   p = path_join directory entry).
Proof.
  unfold generate_entry.
  destruct (isdir fs (path_join directory entry)) eqn:Hdir.
  - destruct (isfile fs (path_join (path_join directory entry) "__init__.pyi"))
      eqn:Hinit; intros H.
    + apply list_elem_of_singleton in H. injection H as -> ->. left. done.
    + by apply elem_of_nil in H.
  - destruct (Str.endswith entry ".pyi") eqn:Hsuffix; cbn;
      [|intros H; by apply elem_of_nil in H].
    destruct (isfile fs (path_join directory entry)) eqn:Hfile; cbn;
      [|intros H; by apply elem_of_nil in H].
    destruct (String.eqb (Str.rstrip entry ".pyi") "__init__") eqn:Hname; cbn;
      intros H; [by apply elem_of_nil in H|].
    apply list_elem_of_singleton in H. injection H as -> ->. right.
    apply String.eqb_neq in Hname. done.
Qed.

Lemma create_stub_map_sound (fs : FileSystem) (directory name p : string) :
  _create_stub_map fs directory !! name = Some p ->
  exists listed entry,
    listdir fs directory = inr listed /\ entry ∈ listed /\
    (name, p) ∈ generate_entry fs directory entry.
Proof.
  unfold _create_stub_map, dict, generate. intros H.
  apply dict_fold_lookup in H as [H | H]; [|by rewrite lookup_empty in H].
  destruct (listdir fs directory) as [e|listed]; [by apply elem_of_nil in H|].
  apply list_elem_of_In, in_flat_map in H as (entry & Hentry & H).
  exists listed, entry. by rewrite !list_elem_of_In.
Qed.

Lemma generate_entry_keys (fs : FileSystem) (directory entry name : string) :
  entry <> name -> Str.rstrip entry ".pyi" <> name ->
  forall kv, kv ∈ generate_entry fs directory entry -> kv.1 <> name.
Proof.
  intros Hentry Hstem [k v] H. cbn.
  apply generate_entry_sound in H as [(_ & -> & _) | (_ & _ & _ & -> & _)]; done.
Qed.

Lemma create_stub_map_last (fs : FileSystem) (directory entry name p : string)
    (before after : list string) :
  listdir fs directory = inr (before ++ entry :: after)%list ->
  generate_entry fs directory entry = [(name, p)] ->
  (forall later, later ∈ after ->
     later <> name /\ Str.rstrip later ".pyi" <> name) ->
  _create_stub_map fs directory !! name = Some p.
Proof.
  intros Hlist Hentry Hafter. unfold _create_stub_map, generate.
  rewrite Hlist, flat_map_app. cbn [flat_map]. rewrite Hentry. cbn [app].
  apply dict_last. intros kv Hkv.
  apply list_elem_of_In, in_flat_map in Hkv as (later & Hlater & Hkv).
  apply list_elem_of_In in Hlater, Hkv.
  destruct (Hafter later Hlater) as [H1 H2].
  by apply (generate_entry_keys fs directory later name H1 H2).
Qed.

(** X1.  Every path in the index of a directory named a regular file when
    the directory was scanned, and ends in [.pyi]. *)
Theorem stub_paths_are_stub_files (fs : FileSystem) (directory name p : string) :
  _create_stub_map fs directory !! name = Some p ->
  isfile fs p = true /\ Str.endswith p ".pyi" = true.
Proof.
  intros H. apply create_stub_map_sound in H as (listed & entry & _ & _ & H).
  apply generate_entry_sound in H
    as [(_ & _ & -> & Hfile) | (_ & Hsuffix & Hfile & _ & _ & ->)].
  - split; [exact Hfile|]. by apply path_join_endswith.
  - split; [exact Hfile|]. by apply path_join_endswith.
Qed.

(** X2.  A name whose last character is [.], [p], [y] or [i], and the name
    [__init__], are in the index of a directory only in package form: when
    the directory holds no subdirectory of that name, no stub file registers
    the name, whatever the files are called. *)
Theorem standalone_stub_key (fs : FileSystem) (directory name : string) :
  last_char_in name ".pyi" = true \/ name = "__init__" ->
  isdir fs (path_join directory name) = false ->
  _create_stub_map fs directory !! name = None.
Proof.
  intros Hname Hdir.
  destruct (_create_stub_map fs directory !! name) as [p|] eqn:H; [|reflexivity].
  apply create_stub_map_sound in H as (listed & entry & _ & _ & H).
  apply generate_entry_sound in H
    as [(Hisdir & -> & _) | (_ & _ & _ & Hstem & Hinit & _)].
  - congruence.
  - destruct Hname as [Hlast | ->]; [|done].
    rewrite Hstem, rstrip_last_char in Hlast. discriminate.
Qed.

(** X3.  A stub file [stem.pyi] of the listing that is a regular file is
    registered under [stem], with its own path, when the last character of
    [stem] is none of [.], [p], [y], [i], [stem] is not [__init__], and no
    later entry of the listing is named [stem] or is stripped to [stem]. *)
Theorem standalone_stub_registered (fs : FileSystem) (directory stem : string)
    (before after : list string) :
  listdir fs directory = inr (before ++ (stem ++ ".pyi")%string :: after)%list ->
  last_char_in stem ".pyi" = false ->
  stem <> "__init__" ->
  isdir fs (path_join directory (stem ++ ".pyi")) = false ->
  isfile fs (path_join directory (stem ++ ".pyi")) = true ->
  (forall later, later ∈ after ->
     later <> stem /\ Str.rstrip later ".pyi" <> stem) ->
  _create_stub_map fs directory !! stem =
    Some (path_join directory (stem ++ ".pyi")).
Proof.
  intros Hlist Hlast Hinit Hdir Hfile Hafter.
  apply (create_stub_map_last fs directory (stem ++ ".pyi") stem _ before after
           Hlist); [|exact Hafter].
  unfold generate_entry. rewrite Hdir, Hfile, endswith_self, rstrip_pyi_stem by done.
  cbn. apply String.eqb_neq in Hinit. by rewrite Hinit.
Qed.

(** X4.  A subdirectory of the listing that holds a regular file
    [__init__.pyi] is registered under its own name, with the path of that
    file, when no later entry of the listing is stripped to that name. *)
Theorem package_stub_registered (fs : FileSystem) (directory entry : string)
    (before after : list string) :
  listdir fs directory = inr (before ++ entry :: after)%list ->
  isdir fs (path_join directory entry) = true ->
  isfile fs (path_join (path_join directory entry) "__init__.pyi") = true ->
  (forall later, later ∈ after ->
     later <> entry /\ Str.rstrip later ".pyi" <> entry) ->
  _create_stub_map fs directory !! entry =
    Some (path_join (path_join directory entry) "__init__.pyi").
Proof.
  intros Hlist Hdir Hfile Hafter.
  apply (create_stub_map_last fs directory entry entry _ before after Hlist);
    [|exact Hafter].
  unfold generate_entry. by rewrite Hdir, Hfile.
Qed.

(** ** Stub Index Builder, several directories *)

Lemma merge_loop_union (fs : FileSystem) (directories : list string)
    (map_ : gmap string string) :
  merge_loop fs map_ directories = merge_loop fs ∅ directories ∪ map_.
Proof.
  revert map_. induction directories as [|d directories IH]; intros map_; cbn.
  - by rewrite (left_id_L ∅ (∪)).
  - fold (merge_loop fs (update map_ (_create_stub_map fs d)) directories).
    fold (merge_loop fs (update ∅ (_create_stub_map fs d)) directories).
    rewrite IH, (IH (update ∅ _)). unfold update.
    by rewrite (right_id_L ∅ (∪)), (assoc_L (∪)).
Qed.

Lemma merge_loop_lookup (fs : FileSystem) (directories : list string)
    (N p : string) :
  merge_loop fs ∅ directories !! N = Some p ->
  exists d, d ∈ directories /\ _create_stub_map fs d !! N = Some p.
Proof.
  induction directories as [|d directories IH] using rev_ind;
    [cbn; by rewrite lookup_empty|].
  rewrite merge_loop_app. cbn. rewrite lookup_update.
  destruct (_create_stub_map fs d !! N) as [p'|] eqn:Hd.
  - intros [= ->]. exists d. split; [apply elem_of_app; right; left | exact Hd].
  - intros H. destruct (IH H) as (d' & Hd' & Hreg).
    exists d'. split; [apply elem_of_app; by left | exact Hreg].
Qed.

Lemma merge_loop_registered (fs : FileSystem) (directories : list string)
    (d N p : string) :
  d ∈ directories -> _create_stub_map fs d !! N = Some p ->
  is_Some (merge_loop fs ∅ directories !! N).
Proof.
  intros Hd Hreg.
  destruct (merge_loop fs ∅ directories !! N) as [p'|] eqn:H; [eauto|].
  exfalso. revert H. clear -Hd Hreg.
  induction directories as [|d' directories IH] using rev_ind;
    [by apply elem_of_nil in Hd|].
  rewrite merge_loop_app. cbn. rewrite lookup_update.
  apply elem_of_app in Hd as [Hd | Hd].
  - destruct (_create_stub_map fs d' !! N); [discriminate | by apply IH].
  - apply list_elem_of_singleton in Hd as ->. by rewrite Hreg.
Qed.

(** X5.  When the merge of directories returns, a name is in the merged
    index exactly when one of the directories registers it, and the path it
    holds is the one some directory gives for that name. *)
Theorem merged_index_lookup (fs : FileSystem) (directories : generated string)
    (map_ : gmap string string) (N : string) :
  _merge_create_stub_map fs directories = Ok map_ ->
  (map_ !! N = None <->
   forall d, d ∈ yielded directories -> _create_stub_map fs d !! N = None) /\
  (forall p, map_ !! N = Some p ->
     exists d, d ∈ yielded directories /\ _create_stub_map fs d !! N = Some p).
Proof.
  unfold _merge_create_stub_map.
  destruct (raised directories); [discriminate|]. intros [= <-]. split.
  - split.
    + intros Hnone d Hd.
      destruct (_create_stub_map fs d !! N) as [p|] eqn:Hreg; [|reflexivity].
      destruct (merge_loop_registered fs _ d N p Hd Hreg) as [p' Hp'].
      congruence.
    + intros Hall. by rewrite merge_loop_absent.
  - apply merge_loop_lookup.
Qed.

(** X6.  When the merges of two lists of directories return, the merge of
    the first list followed by the second returns the index of the first
    updated with the index of the second. *)
Theorem merge_of_concatenation (fs : FileSystem) (l1 l2 : list string)
    (map1 map2 : gmap string string) :
  _merge_create_stub_map fs (gen_of_list l1) = Ok map1 ->
  _merge_create_stub_map fs (gen_of_list l2) = Ok map2 ->
  _merge_create_stub_map fs (gen_of_list (l1 ++ l2)) = Ok (update map1 map2).
Proof.
  unfold _merge_create_stub_map, gen_of_list. cbn [yielded raised].
  intros [= <-] [= <-]. f_equal.
  rewrite merge_loop_app. apply merge_loop_union.
Qed.

(** ** Stub Directory Locator, further *)

Lemma typeshed_directories_unfold (tp : string) (fs : FileSystem)
    (version_info : VersionInfo) :
  _get_typeshed_directories tp fs version_info =
  let stdlib := path_join tp "stdlib" in
  let third_party := path_join tp "third_party" in
  let seeds := ["2and3"; Str.str (major version_info)] in
  match listdir fs stdlib with
  | inl e => gen_raise (OSError e)
  | inr l1 =>
      let q1 := (seeds ++ List.filter (version_entry version_info) l1)%list in
      match listdir fs third_party with
      | inl e => {| yielded := map (path_join stdlib) q1; raised := Some (OSError e) |}
      | inr l2 =>
          let q2 := (q1 ++ List.filter (version_entry version_info) l2)%list in
          gen_of_list (map (path_join stdlib) q1 ++ map (path_join third_party) q2)%list
      end
  end.
Proof.
  unfold _get_typeshed_directories. cbn [typeshed_loop]. cbv zeta.
  destruct (listdir fs (path_join tp "stdlib")) as [e1|l1]; [reflexivity|].
  rewrite foldl_check_entry.
  destruct (listdir fs (path_join tp "third_party")) as [e2|l2].
  - unfold gen_yield_then, gen_raise. cbn [yielded raised].
    by rewrite app_nil_r.
  - rewrite foldl_check_entry. unfold gen_yield_then, gen_of_list.
    cbn [yielded raised]. by rewrite app_nil_r.
Qed.

Lemma version_entry_mono (v v' : VersionInfo) (entry : string) :
  major v = major v' -> minor v <= minor v' ->
  version_entry v entry = true -> version_entry v' entry = true.
Proof.
  intros Hmajor Hminor. unfold version_entry.
  destruct (version_match entry) as [[g1 g2]|]; [|done].
  rewrite !andb_true_iff, Hmajor. intros [H1 H2]. split; [exact H1|].
  apply Z.leb_le in H2. apply Z.leb_le. lia.
Qed.

Lemma qualifiers_mono (v v' : VersionInfo) (seeds l : list string) (q : string) :
  major v = major v' -> minor v <= minor v' ->
  q ∈ (seeds ++ List.filter (version_entry v) l)%list ->
  q ∈ (seeds ++ List.filter (version_entry v') l)%list.
Proof.
  intros Hmajor Hminor. rewrite !elem_of_app, !list_elem_of_In, !filter_In.
  intros [H | [Hin Hv]]; [by left | right].
  split; [exact Hin|]. by apply (version_entry_mono v v').
Qed.

(** X7.  When the category [stdlib] cannot be listed the Locator yields
    nothing and raises the error of the listing.  When [stdlib] can be listed
    and [third_party] cannot, it yields the paths of [stdlib], all of them,
    and then raises the error of the listing of [third_party]. *)
Theorem typeshed_directories_partial (tp : string) (fs : FileSystem)
    (version_info : VersionInfo) :
  (forall e, listdir fs (path_join tp "stdlib") = inl e ->
     _get_typeshed_directories tp fs version_info =
       {| yielded := []; raised := Some (OSError e) |}) /\
  (forall l1 e,
     listdir fs (path_join tp "stdlib") = inr l1 ->
     listdir fs (path_join tp "third_party") = inl e ->
     _get_typeshed_directories tp fs version_info =
       {| yielded :=
            map (path_join (path_join tp "stdlib"))
              (["2and3"; Str.str (major version_info)] ++
               List.filter (version_entry version_info) l1)%list;
          raised := Some (OSError e) |}).
Proof.
  split.
  - intros e H. rewrite typeshed_directories_unfold. cbv zeta. by rewrite H.
  - intros l1 e H1 H2. rewrite typeshed_directories_unfold. cbv zeta.
    by rewrite H1, H2.
Qed.

(** X8.  On the same directory tree, every path the Locator yields for a
    version is yielded for every version with the same major and a minor
    that is not smaller. *)
Theorem typeshed_directories_monotone (tp : string) (fs : FileSystem)
    (v v' : VersionInfo) (p : string) :
  major v = major v' -> minor v <= minor v' ->
  p ∈ yielded (_get_typeshed_directories tp fs v) ->
  p ∈ yielded (_get_typeshed_directories tp fs v').
Proof.
  intros Hmajor Hminor. rewrite !typeshed_directories_unfold. cbv zeta.
  rewrite <- Hmajor.
  destruct (listdir fs (path_join tp "stdlib")) as [e1|l1]; [done|].
  assert (Hq1 : forall p,
    p ∈ map (path_join (path_join tp "stdlib"))
          (["2and3"; Str.str (major v)] ++ List.filter (version_entry v) l1)%list ->
    p ∈ map (path_join (path_join tp "stdlib"))
          (["2and3"; Str.str (major v)] ++ List.filter (version_entry v') l1)%list).
  { intros p'. rewrite !list_elem_of_fmap. intros (q & -> & Hq).
    exists q. split; [reflexivity|]. by apply (qualifiers_mono v v'). }
  destruct (listdir fs (path_join tp "third_party")) as [e2|l2];
    cbn [yielded gen_of_list]; [apply Hq1|].
  rewrite !elem_of_app. intros [H | H]; [left; by apply Hq1 | right].
  revert H. rewrite !list_elem_of_fmap. intros (q & -> & Hq).
  exists q. split; [reflexivity|].
  rewrite <- !app_assoc in Hq |- *.
  apply elem_of_app in Hq as [Hq | Hq]; apply elem_of_app; [by left | right].
  rewrite !elem_of_app, !list_elem_of_In, !filter_In in Hq |- *.
  destruct Hq as [[Hin Hv] | [Hin Hv]]; [left | right];
    (split; [exact Hin | by apply (version_entry_mono v v')]).
Qed.

(** X9.  When both categories can be listed and a directory of the category
    [third_party] among those yielded registers a name, the merged index of
    the version holds for that name a path registered by a directory of
    [third_party]: no stub of [stdlib] takes its place. *)
Theorem third_party_overrides (tp : string) (fs : FileSystem)
    (version_info : VersionInfo) (l1 l2 : list string) (q N p0 : string) :
  listdir fs (path_join tp "stdlib") = inr l1 ->
  listdir fs (path_join tp "third_party") = inr l2 ->
  let qualifiers :=
    ((["2and3"; Str.str (major version_info)] ++
      List.filter (version_entry version_info) l1) ++
     List.filter (version_entry version_info) l2)%list in
  q ∈ qualifiers ->
  _create_stub_map fs (path_join (path_join tp "third_party") q) !! N = Some p0 ->
  exists map_ q' p,
    _merge_create_stub_map fs (_get_typeshed_directories tp fs version_info)
      = Ok map_ /\
    map_ !! N = Some p /\
    q' ∈ qualifiers /\
    _create_stub_map fs (path_join (path_join tp "third_party") q') !! N = Some p.
Proof.
  intros H1 H2 qualifiers Hq Hreg.
  rewrite (typeshed_directories_listed tp fs version_info l1 l2 H1 H2). cbv zeta.
  fold qualifiers.
  set (A := map (path_join (path_join tp "stdlib")) _).
  set (B := map (path_join (path_join tp "third_party")) qualifiers).
  unfold _merge_create_stub_map, gen_of_list. cbn [yielded raised].
  rewrite merge_loop_app, merge_loop_union.
  destruct (merge_loop_registered fs B
              (path_join (path_join tp "third_party") q) N p0) as [p Hp];
    [subst B; apply list_elem_of_fmap; eauto | exact Hreg |].
  destruct (merge_loop_lookup fs B N p Hp) as (d & Hd & Hd').
  subst B. apply list_elem_of_fmap in Hd as (q' & -> & Hq').
  eexists _, q', p. split; [reflexivity|].
  split; [|split; [exact Hq' | exact Hd']].
  apply lookup_union_Some_l. exact Hp.
Qed.

(** ** Stub Index Cache, further *)

(** X10.  A request for the index of a version leaves the entries of the
    other versions as they are, present or absent, and leaves the whole cache
    as it is when the version is stored already. *)
Theorem cache_request_frame (tp : string) (fs : FileSystem)
    (version_info : VersionInfo) (cache : VersionCache) :
  (forall key, key <> version_key version_info ->
     snd (_cache_stub_file_map tp fs version_info cache) !! key = cache !! key) /\
  (is_Some (cache !! version_key version_info) ->
   snd (_cache_stub_file_map tp fs version_info cache) = cache).
Proof.
  unfold _cache_stub_file_map. cbv zeta. split.
  - intros key Hkey.
    destruct (cache !! version_key version_info); [reflexivity|].
    destruct (_merge_create_stub_map _ _); [|reflexivity].
    cbn. by apply lookup_insert_ne.
  - intros [file_set ->]. reflexivity.
Qed.

(** X11.  A request that raises stores nothing: the cache is as before, the
    version was not stored, and the exception is the one the Locator raised.
    A later request for the same version on a directory tree whose
    categories can be listed then builds the index from that tree and
    stores it. *)
Theorem failed_request_not_cached (tp : string) (fs : FileSystem)
    (version_info : VersionInfo) (cache cache1 : VersionCache) (e : Exn) :
  _cache_stub_file_map tp fs version_info cache = (Raise e, cache1) ->
  cache1 = cache /\
  cache !! version_key version_info = None /\
  raised (_get_typeshed_directories tp fs version_info) = Some e /\
  (forall fs',
     raised (_get_typeshed_directories tp fs' version_info) = None ->
     exists map_,
       _merge_create_stub_map fs' (_get_typeshed_directories tp fs' version_info)
         = Ok map_ /\
       _cache_stub_file_map tp fs' version_info cache1
         = (Ok map_, <[version_key version_info := map_]> cache1)).
Proof.
  unfold _cache_stub_file_map. cbv zeta.
  destruct (cache !! version_key version_info) as [file_set|] eqn:Hmiss;
    [discriminate|].
  unfold _merge_create_stub_map at 1.
  destruct (raised (_get_typeshed_directories tp fs version_info)) as [e'|] eqn:Hraised;
    [|discriminate].
  intros [= <- <-]. split; [reflexivity|]. split; [reflexivity|].
  split; [reflexivity|].
  intros fs' Hok. rewrite Hmiss. unfold _merge_create_stub_map. rewrite Hok.
  eexists. split; reflexivity.
Qed.

(** ** Import Resolution Interceptor, further *)

(** X12.  Once the inner resolver has returned, the wrapper raises
    [IndexError] on an empty import path and leaves the cache as it is; for
    a single component other than [typing] it raises what the request for
    the index of the version raises; and when the index consulted holds a
    path for the last component and loading the document of that path raises
    something else than [FileNotFoundError], it raises that exception, the
    cache being as the consultation of the index left it. *)
Theorem import_module_raises (tp : string) (fs : FileSystem)
    (py__path__ : Context -> list string) (callback : Resolver ContextSet)
    (evaluator : Evaluator) (import_names : list string) (import_name : string)
    (parent : option Context) (sys_path : list string) (cache : VersionCache) :
  (import_names = [] ->
   import_module tp fs py__path__ callback evaluator import_names parent
     sys_path cache = (Raise IndexError, cache)) /\
  (forall e cache',
     import_names = [import_name] -> import_name <> "typing" ->
     _cache_stub_file_map tp fs (grammar_version_info evaluator) cache
       = (Raise e, cache') ->
     import_module tp fs py__path__ callback evaluator import_names parent
       sys_path cache = (Raise e, cache')) /\
  (forall map_ cache' path e,
     last import_names = Some import_name ->
     wrapper_map tp fs py__path__ evaluator import_names import_name parent cache
       = (Ok (Some map_), cache') ->
     map_ !! import_name = Some path ->
     _load_stub evaluator path = Raise e ->
     e <> OSError FileNotFoundError ->
     import_module tp fs py__path__ callback evaluator import_names parent
       sys_path cache = (Raise e, cache')).
Proof.
  split; [|split].
  - intros ->. reflexivity.
  - intros e cache' -> Hname Hcache.
    unfold import_module, mbind, M_bind, lift. cbn [last from_option].
    unfold wrapper_map. cbn [List.length Nat.eqb].
    apply String.eqb_neq in Hname. rewrite Hname. cbn [negb andb].
    unfold mbind, M_bind. by rewrite Hcache.
  - intros map_ cache' path e Hlast Hmap Hpath Hload Hother.
    rewrite (import_module_run _ _ _ _ _ _ _ _ _ _ _ _ Hlast Hmap).
    cbn [mbind option_bind]. rewrite Hpath, Hload.
    destruct e as [[]| | |]; try reflexivity. done.
Qed.

(** X13.  A call of the wrapper whose import path does not have exactly one
    component, or ends with [typing], leaves the cache of the indices as it
    is, whether it returns or raises: the index of a stub-backed parent is
    built afresh and kept nowhere. *)
Theorem import_module_keeps_cache (tp : string) (fs : FileSystem)
    (py__path__ : Context -> list string) (callback : Resolver ContextSet)
    (evaluator : Evaluator) (import_names : list string)
    (parent : option Context) (sys_path : list string) (cache : VersionCache) :
  List.length import_names <> 1%nat \/ last import_names = Some "typing" ->
  snd (import_module tp fs py__path__ callback evaluator import_names parent
         sys_path cache) = cache.
Proof.
  intros Hnames. unfold import_module, mbind, M_bind, lift.
  destruct (last import_names) as [import_name|] eqn:Hlast; cbn [from_option];
    [|reflexivity].
  assert (Hcond : ((List.length import_names =? 1)%nat &&
                   negb (String.eqb import_name "typing"))%bool = false).
  { destruct Hnames as [Hlen | [= ->]].
    - apply Nat.eqb_neq in Hlen. by rewrite Hlen.
    - by rewrite andb_false_r. }
  unfold wrapper_map. rewrite Hcond.
  assert (Hmap : exists map_,
    (match parent with
     | Some (ModuleStubContext _ _ _ _ _ _ as parent0) =>
         map_ ← lift (_merge_create_stub_map fs (gen_of_list (py__path__ parent0)));
         mret (Some map_)
     | _ => mret None
     end : M _) cache = (Ok map_, cache)).
  { destruct parent as [[]|]; eexists; reflexivity. }
  destruct Hmap as [map_ ->].
  destruct map_ as [map_|]; cbn; [|reflexivity].
  destruct (map_ !! import_name) as [path|]; cbn; [|reflexivity].
  destruct (_load_stub evaluator path) as [stub|[[]| | |]]; cbn; try reflexivity.
  destruct (callback _ _ _ _); reflexivity.
Qed.

(** X14.  A module the wrapper returned alone, built from a stub for want
    of a concrete candidate, is not stub-backed: an import of several
    components under it consults no index, however many stubs its directory
    holds, and returns the result set of the inner resolver, which is given
    that module as parent. *)
Theorem submodule_of_stub_only_module (tp : string) (fs : FileSystem)
    (py__path__ : Context -> list string) (callback : Resolver ContextSet)
    (evaluator : Evaluator) (import_names : list string)
    (parent : option Context) (sys_path : list string)
    (cache cache' : VersionCache) (package : Context) :
  import_module tp fs py__path__ callback evaluator import_names parent sys_path cache
    = (Ok (ReturnContext package), cache') ->
  forall tp' fs' py__path__' callback' evaluator' import_names' import_name'
         sys_path' cache'',
    (1 < List.length import_names')%nat ->
    last import_names' = Some import_name' ->
    import_module tp' fs' py__path__' callback' evaluator' import_names'
      (Some package) sys_path' cache'' =
    (Ok (ReturnContextSet
           (callback' evaluator' import_names' (Some package) sys_path')), cache'').
Proof.
  intros Hfirst.
  assert (Hplain : is_ModuleStubContext (Some package) = false).
  { revert Hfirst. unfold import_module, mbind, M_bind, lift.
    destruct (last import_names) as [import_name|]; cbn [from_option];
      [|discriminate].
    destruct (wrapper_map _ _ _ _ _ _ _ _) as [[[map_|]|e] c]; cbn;
      try discriminate.
    destruct (map_ !! import_name) as [path|]; cbn; [|discriminate].
    destruct (_load_stub evaluator path) as [stub|[[]| | |]]; cbn;
      try discriminate.
    destruct (callback _ _ _ _); [|discriminate].
    intros [= <- _]. reflexivity. }
  intros tp' fs' py__path__' callback' evaluator' import_names' import_name'
         sys_path' cache'' Hlen Hlast.
  assert (Hmap : wrapper_map tp' fs' py__path__' evaluator' import_names'
                   import_name' (Some package) cache'' = (Ok None, cache'')).
  { apply wrapper_map_none; [exact Hplain | right; lia]. }
  rewrite (import_module_run _ _ _ _ _ _ _ _ _ _ _ _ Hlast Hmap). cbn.
  destruct package; try reflexivity. discriminate Hplain.
Qed.

(** ** Merged Name Filter, further *)

Lemma mapM_Raise {A B : Type} (f : A -> result B) (l : list A) (e : Exn) :
  mapM f l = Raise e -> exists x, x ∈ l /\ f x = Raise e.
Proof.
  induction l as [|x l IH]; cbn; [discriminate|].
  unfold mbind, result_bind, mret, result_ret.
  destruct (f x) as [y|e'] eqn:Hx.
  - destruct (mapM f l) as [k|e'] eqn:Hl; [discriminate|].
    intros [= <-]. destruct (IH eq_refl) as (x' & Hx' & Hf).
    exists x'. split; [by right | exact Hf].
  - intros [= <-]. exists x. split; [left | exact Hx].
Qed.

Lemma convert_found_Ok (self : StubParserTreeFilter) (name : TreeName)
    (non_stub_name : Name) (entry : Name) :
  match non_stub_name with
  | TreeNameDefinition parent_context tree_name
  | StubName parent_context tree_name _ _ =>
      StubName_init parent_context tree_name (context self) name
  | OtherName _ _ => Raise AssertionError
  end = Ok entry ->
  exists parent_context tree_name actual,
    goto_target non_stub_name = Some (parent_context, tree_name) /\
    is_ModuleStubContext (Some parent_context) = true /\
    entry = StubName actual tree_name (context self) name.
Proof.
  destruct non_stub_name as [pc tn|pc tn ? ?|]; [| |discriminate];
    (destruct pc; cbn; try discriminate; intros [= <-]; eauto 10).
Qed.

Lemma convert_found_Raise (self : StubParserTreeFilter) (name : TreeName)
    (non_stub_name : Name) (e : Exn) :
  match non_stub_name with
  | TreeNameDefinition parent_context tree_name
  | StubName parent_context tree_name _ _ =>
      StubName_init parent_context tree_name (context self) name
  | OtherName _ _ => Raise AssertionError
  end = Raise e ->
  e = AssertionError \/ e = AttributeError.
Proof.
  destruct non_stub_name as [pc tn|pc tn ? ?|]; [| |intros [= <-]; by left];
    (destruct pc; cbn; try discriminate; intros [= <-]; by right).
Qed.

Lemma convert_names_total (self : StubParserTreeFilter) (names : list TreeName) :
  (forall name non_stub_name,
     name ∈ names -> non_stub_name ∈ _non_stub_filter_get self (value name) ->
     exists parent_context tree_name,
       goto_target non_stub_name = Some (parent_context, tree_name) /\
       is_ModuleStubContext (Some parent_context) = true) ->
  exists out, _convert_names self names = Ok out.
Proof.
  intros Hwf.
  destruct (mapM_total (convert_name self) names) as [groups Hgroups].
  { intros name Hname.
    destruct (merged_found self name (_non_stub_filter_get self (value name)))
      as (merged & Hmerged & _).
    { intros n Hn. by apply (Hwf name). }
    unfold convert_name. rewrite Hmerged. eexists. reflexivity. }
  unfold _convert_names. rewrite Hgroups. eexists. reflexivity.
Qed.

(** X15.  [_convert_names] returns exactly when every declaration the
    wrapped filter finds for a name of the stub scope is a tree name whose
    parent context is a stub-backed module; otherwise it raises
    [AssertionError] (a declaration that is no tree name) or [AttributeError]
    (a parent context without concrete counterpart), and nothing else. *)
Theorem convert_names_returns (self : StubParserTreeFilter) (names : list TreeName) :
  ((exists out, _convert_names self names = Ok out) <->
   (forall name non_stub_name,
      name ∈ names -> non_stub_name ∈ _non_stub_filter_get self (value name) ->
      exists parent_context tree_name,
        goto_target non_stub_name = Some (parent_context, tree_name) /\
        is_ModuleStubContext (Some parent_context) = true)) /\
  (forall e, _convert_names self names = Raise e ->
             e = AssertionError \/ e = AttributeError).
Proof.
  split; [split|].
  - intros [out Hrun] name n Hname Hn. revert Hrun.
    unfold _convert_names, mbind, result_bind.
    destruct (mapM (convert_name self) names) as [groups|e] eqn:Hgroups;
      [intros _ | discriminate].
    apply mapM_Ok in Hgroups.
    apply list_elem_of_lookup in Hname as [i Hi].
    destruct (Forall2_lookup_l _ _ _ _ _ Hgroups Hi) as (group & _ & Hgroup).
    revert Hgroup. unfold convert_name, mbind, result_bind.
    destruct (mapM _ (_non_stub_filter_get self (value name))) as [merged|e] eqn:Hmerged;
      [intros _ | discriminate].
    apply mapM_Ok in Hmerged.
    apply list_elem_of_lookup in Hn as [j Hj].
    destruct (Forall2_lookup_l _ _ _ _ _ Hmerged Hj) as (entry & _ & Hentry).
    apply convert_found_Ok in Hentry as (pc & tn & actual & Hgoto & Hstub & _).
    eauto.
  - apply convert_names_total.
  - intros e. unfold _convert_names, mbind, result_bind.
    destruct (mapM (convert_name self) names) as [groups|e'] eqn:Hgroups;
      [discriminate|].
    intros [= <-]. apply mapM_Raise in Hgroups as (name & _ & Hname).
    revert Hname. unfold convert_name, mbind, result_bind.
    destruct (mapM _ (_non_stub_filter_get self (value name))) as [merged|e''] eqn:Hmerged;
      [discriminate|].
    intros [= <-]. apply mapM_Raise in Hmerged as (n & _ & Hn).
    by apply convert_found_Raise in Hn.
Qed.

(** X16.  The names the stub filter enumerates are a sublist of those the
    inherited check accepts: the filter removes names, and neither adds one
    nor changes their order. *)
Theorem filter_removes_only (self : StubParserTreeFilter)
    (names enumerated : list TreeName) :
  _filter self names = Ok enumerated ->
  enumerated `sublist_of` List.filter (super_is_name_reachable self) names.
Proof.
  unfold _filter, _check_flows, mbind, result_bind, mret, result_ret.
  destruct (mapM _ names) as [keep|e] eqn:Hkeep; [|discriminate].
  intros [= <-]. apply mapM_Ok in Hkeep.
  induction Hkeep as [|n k names keep Hn Hrest IH]; cbn; [constructor|].
  unfold mbind, result_bind, mret, result_ret, _is_name_reachable in Hn.
  destruct (super_is_name_reachable self n); cbn in Hn.
  - destruct (_search_global self); cbn in Hn.
    + injection Hn as <-. cbn. by constructor.
    + destruct (definition_type n) as [type|]; [|discriminate].
      destruct (_ && _)%bool; injection Hn as <-; cbn; by constructor.
  - injection Hn as <-. exact IH.
Qed.

(** X17.  When [_convert_names] returns, every name of the stub scope it was
    given is what at least one entry infers from, in the context of the
    filter, and every entry infers from one of those names in that context:
    no stub name is dropped, none is invented, and there are at least as
    many entries as names. *)
Theorem convert_names_covers (self : StubParserTreeFilter)
    (names : list TreeName) (out : list Name) :
  _convert_names self names = Ok out ->
  (forall name, name ∈ names ->
     exists entry, entry ∈ out /\ inferred_from entry = Some (context self, name)) /\
  (forall entry, entry ∈ out ->
     exists name, name ∈ names /\ inferred_from entry = Some (context self, name)) /\
  (List.length names <= List.length out)%nat.
Proof.
  unfold _convert_names, mbind, result_bind, mret, result_ret.
  destruct (mapM (convert_name self) names) as [groups|e] eqn:Hgroups;
    [|discriminate].
  intros [= <-]. apply mapM_Ok in Hgroups.
  assert (Hgroup : forall name group, convert_name self name = Ok group ->
            group <> [] /\
            forall entry, entry ∈ group ->
                          inferred_from entry = Some (context self, name)).
  { intros name group. unfold convert_name, mbind, result_bind, mret, result_ret.
    destruct (mapM _ (_non_stub_filter_get self (value name))) as [merged|e] eqn:Hmerged;
      [|discriminate].
    intros [= <-]. apply mapM_Ok in Hmerged.
    assert (Hall : forall entry, entry ∈ merged ->
              inferred_from entry = Some (context self, name)).
    { intros entry Hentry. apply list_elem_of_lookup in Hentry as [j Hj].
      destruct (Forall2_lookup_r _ _ _ _ _ Hmerged Hj) as (n & _ & Hn).
      apply convert_found_Ok in Hn as (pc & tn & actual & _ & _ & ->).
      reflexivity. }
    destruct (_non_stub_filter_get self (value name)) as [|n found].
    - inversion Hmerged; subst. split; [discriminate|].
      intros entry Hentry. apply list_elem_of_singleton in Hentry as ->.
      reflexivity.
    - inversion Hmerged; subst. split; [discriminate|]. exact Hall. }
  induction Hgroups as [|name group names groups Hname Hrest IH]; cbn.
  - split; [|split; [|lia]]; intros ? H; by apply elem_of_nil in H.
  - destruct IH as (IH1 & IH2 & IH3).
    destruct (Hgroup name group Hname) as [Hne Hall].
    split; [|split].
    + intros name' Hname'. apply elem_of_cons in Hname' as [-> | Hname'].
      * destruct group as [|entry group]; [done|].
        exists entry. split; [left | apply Hall; left].
      * destruct (IH1 name' Hname') as (entry & Hentry & Hfrom).
        exists entry. split; [apply elem_of_app; by right | exact Hfrom].
    + intros entry Hentry. apply elem_of_app in Hentry as [Hentry | Hentry].
      * exists name. split; [left | by apply Hall].
      * destruct (IH2 entry Hentry) as (name' & Hname' & Hfrom).
        exists name'. split; [by right | exact Hfrom].
    + rewrite length_app. destruct group; [done|]. cbn. lia.
Qed.

(** ** Stub-Backed Context Types *)

Lemma merged_found_module (self : StubParserTreeFilter) (name : TreeName)
    (found : list Name) (evaluator : Evaluator) (stub_module_node : Node)
    (path : string) (code_lines : list string) (actual : Context)
    (parent : option Context) :
  let module := ModuleStubContext evaluator stub_module_node path code_lines
                  actual parent in
  (forall non_stub_name, non_stub_name ∈ found ->
     exists tree_name, non_stub_name = TreeNameDefinition module tree_name) ->
  exists merged,
    mapM (fun non_stub_name =>
            match non_stub_name with
            | TreeNameDefinition parent_context tree_name
            | StubName parent_context tree_name _ _ =>
                StubName_init parent_context tree_name (context self) name
            | OtherName _ _ => Raise AssertionError
            end) found = Ok merged /\
    Forall2 (fun non_stub_name entry =>
               exists tree_name,
                 non_stub_name = TreeNameDefinition module tree_name /\
                 entry = StubName actual tree_name (context self) name)
            found merged.
Proof.
  intros module. induction found as [|n found IH]; intros Hall.
  - exists []. split; [reflexivity | constructor].
  - destruct IH as (merged & Hmerged & Hrel);
      [intros n' Hn'; apply Hall; by right|].
    destruct (Hall n) as [tn ->]; [left|].
    exists (StubName actual tn (context self) name :: merged). split.
    + apply mapM_Ok. constructor; [reflexivity | by apply mapM_Ok].
    + constructor; [eauto | exact Hrel].
Qed.

(** X18.  For a stub-backed module whose default chain starts with a filter
    of tree names of that module, [get_filters] yields a wrapped filter
    followed by the other default filters, unchanged and in their order.  The
    wrapped filter has the module as context, the [search_global] given, and
    looks concrete declarations up in the first default filter.  Through it
    every list of stub names is converted without exception: a name the
    first default filter does not know gives one entry, the stub declaration
    in the stub-backed module; a name it knows gives one entry for each
    declaration found, which goes to the tree name of that declaration in
    the concrete counterpart of the module and infers from the stub name in
    the stub-backed module. *)
Theorem stub_module_filters (evaluator : Evaluator) (stub_module_node : Node)
    (path : string) (code_lines : list string) (actual : Context)
    (parent : option Context) (first : DefaultFilter) (rest : list DefaultFilter)
    (reachable : TreeName -> bool) (search_global : bool) :
  let self := ModuleStubContext evaluator stub_module_node path code_lines
                actual parent in
  (forall name non_stub_name,
     non_stub_name ∈ default_get first name ->
     exists tree_name, non_stub_name = TreeNameDefinition self tree_name) ->
  exists wrapped,
    get_filters self (first :: rest) reachable search_global =
      Some (WrappedFilter wrapped :: map PlainFilter rest) /\
    context wrapped = self /\
    _search_global wrapped = search_global /\
    _non_stub_filter_get wrapped = default_get first /\
    super_is_name_reachable wrapped = reachable /\
    forall names, exists groups,
      _convert_names wrapped names = Ok (List.concat groups) /\
      Forall2
        (fun name group =>
           (default_get first (value name) = [] ->
            group = [TreeNameDefinition self name]) /\
           (default_get first (value name) <> [] ->
            Forall2
              (fun non_stub_name entry =>
                 exists tree_name,
                   non_stub_name = TreeNameDefinition self tree_name /\
                   entry = StubName actual tree_name self name)
              (default_get first (value name)) group))
        names groups.
Proof.
  intros self Hfirst. eexists. split; [reflexivity|].
  do 4 (split; [reflexivity|]).
  set (wrapped := {| context := self; _search_global := search_global;
                     _non_stub_filter_get := default_get first;
                     super_is_name_reachable := reachable |}).
  intros names.
  enough (exists groups,
            mapM (convert_name wrapped) names = Ok groups /\
            Forall2
              (fun name group =>
                 (default_get first (value name) = [] ->
                  group = [TreeNameDefinition self name]) /\
                 (default_get first (value name) <> [] ->
                  Forall2
                    (fun non_stub_name entry =>
                       exists tree_name,
                         non_stub_name = TreeNameDefinition self tree_name /\
                         entry = StubName actual tree_name self name)
                    (default_get first (value name)) group))
              names groups) as (groups & Hrun & Hrel).
  { exists groups. split; [|exact Hrel].
    unfold _convert_names. rewrite Hrun. reflexivity. }
  induction names as [|name names IH].
  - exists []. split; [reflexivity | constructor].
  - destruct IH as (groups & Hrun & Hrel).
    destruct (merged_found_module wrapped name (default_get first (value name))
                evaluator stub_module_node path code_lines actual parent)
      as (merged & Hmerged & Hpairs).
    { intros n Hn. exact (Hfirst (value name) n Hn). }
    exists (((match default_get first (value name) with
              | [] => [TreeNameDefinition self name]
              | _ :: _ => []
              end) ++ merged)%list :: groups).
    split.
    + apply mapM_Ok. constructor; [|by apply mapM_Ok].
      unfold convert_name.
      change (_non_stub_filter_get wrapped (value name))
        with (default_get first (value name)).
      rewrite Hmerged. reflexivity.
    + constructor; [|exact Hrel]. split.
      * intros Hnone. rewrite Hnone in Hpairs |- *.
        inversion Hpairs; subst. reflexivity.
      * intros Hsome.
        destruct (default_get first (value name)) as [|n found]; [done|].
        exact Hpairs.
Qed.

(** ** The directory of the requested version *)

Lemma digit_char_spec (d : Z) (rest : list ascii) :
  0 <= d < 10 -> decimal_head (Str.digit_char d :: rest) = Some (d, rest).
Proof.
  intros Hd.
  assert (d = 0 \/ d = 1 \/ d = 2 \/ d = 3 \/ d = 4 \/
          d = 5 \/ d = 6 \/ d = 7 \/ d = 8 \/ d = 9) as Hcases by lia.
  repeat (destruct Hcases as [-> | Hcases]; [reflexivity|]).
  subst d. reflexivity.
Qed.

Lemma digits_of_spec (fuel : nat) :
  forall n acc,
    (0 < fuel)%nat -> 0 <= n < 2 ^ Z.of_nat fuel ->
    exists ds vs,
      Str.digits_of fuel n acc = (ds ++ acc)%list /\ ds <> [] /\
      Forall2 (fun c v => forall rest, decimal_head (c :: rest) = Some (v, rest))
              ds vs /\
      Str.int vs = n.
Proof.
  induction fuel as [|fuel IH]; intros n acc Hfuel Hn; [lia|].
  cbn [Str.digits_of].
  assert (Hmod : 0 <= n mod 10 < 10) by (apply Z.mod_pos_bound; lia).
  pose proof (fun rest => digit_char_spec (n mod 10) rest Hmod) as Hdigit.
  destruct (n <? 10) eqn:Hsmall.
  - apply Z.ltb_lt in Hsmall.
    exists [Str.digit_char (n mod 10)], [n mod 10].
    split; [reflexivity|]. split; [discriminate|].
    split; [constructor; [exact Hdigit | constructor]|].
    unfold Str.int. cbn. rewrite Z.mod_small; lia.
  - apply Z.ltb_ge in Hsmall.
    rewrite Nat2Z.inj_succ, Z.pow_succ_r in Hn by lia.
    assert (Hfuel' : (0 < fuel)%nat).
    { destruct fuel; [|lia]. cbn in Hn. lia. }
    assert (Hdiv : 0 <= n / 10 < 2 ^ Z.of_nat fuel).
    { pose proof (Z.pow_pos_nonneg 2 (Z.of_nat fuel)).
      split; [apply Z.div_pos; lia|].
      apply Z.div_lt_upper_bound; lia. }
    destruct (IH (n / 10) (Str.digit_char (n mod 10) :: acc) Hfuel' Hdiv)
      as (ds & vs & Heq & Hne & Hall & Hint).
    exists (ds ++ [Str.digit_char (n mod 10)])%list, (vs ++ [n mod 10])%list.
    split; [by rewrite Heq, <- app_assoc|].
    split; [by destruct ds|].
    split; [apply Forall2_app; [exact Hall | constructor; [exact Hdigit | constructor]]|].
    unfold Str.int in *. rewrite fold_left_app. cbn. rewrite Hint.
    pose proof (Z.div_mod n 10). lia.
Qed.

Lemma str_digits (n : Z) :
  0 <= n ->
  exists ds vs,
    Str.chars (Str.str n) = ds /\ ds <> [] /\
    Forall2 (fun c v => forall rest, decimal_head (c :: rest) = Some (v, rest))
            ds vs /\
    Str.int vs = n.
Proof.
  intros Hn. unfold Str.str.
  assert ((n <? 0) = false) as -> by (apply Z.ltb_ge; lia).
  destruct (digits_of_spec (S (Z.to_nat (Z.log2 (Z.abs n)))) n [])
    as (ds & vs & Heq & Hne & Hall & Hint); [lia | |].
  - rewrite Z.abs_eq by lia. split; [lia|].
    rewrite Nat2Z.inj_succ, Z2Nat.id by apply Z.log2_nonneg.
    destruct (decide (n = 0)) as [-> | Hpos]; [reflexivity|].
    apply Z.log2_spec. lia.
  - exists ds, vs. rewrite Heq, app_nil_r, chars_of_chars. done.
Qed.

Lemma span_digits_ascii (ds : list ascii) (vs : list Z) (rest : list ascii) :
  Forall2 (fun c v => forall rest, decimal_head (c :: rest) = Some (v, rest)) ds vs ->
  decimal_head rest = None ->
  forall fuel, (List.length ds <= fuel)%nat ->
    Str.span_digits_fuel fuel (ds ++ rest) = (vs, rest).
Proof.
  intros Hall Hrest.
  induction Hall as [|c v ds vs Hc Hall IH]; intros fuel Hfuel; cbn [app].
  - destruct fuel; cbn [Str.span_digits_fuel]; [reflexivity | by rewrite Hrest].
  - destruct fuel as [|fuel]; [cbn in Hfuel; lia|].
    cbn [Str.span_digits_fuel]. rewrite Hc, IH by (cbn in Hfuel; lia).
    reflexivity.
Qed.

Lemma version_entry_named (version_info : VersionInfo) (m : Z) :
  0 <= major version_info -> 0 <= m <= minor version_info ->
  version_entry version_info (Str.str (major version_info) ++ "." ++ Str.str m) = true.
Proof.
  intros Hmajor Hm.
  destruct (str_digits (major version_info) Hmajor)
    as (b1 & g1 & H1 & Hne1 & Hall1 & Hint1).
  destruct (str_digits m (proj1 Hm)) as (b2 & g2 & H2 & Hne2 & Hall2 & Hint2).
  unfold version_entry, version_match, Str.span_digits.
  rewrite !chars_app, H1, H2. change (Str.chars ".") with ["."%char]. cbn [app].
  rewrite (span_digits_ascii b1 g1 ("."%char :: b2) Hall1) by
    (reflexivity || (rewrite length_app; lia)).
  destruct g1 as [|v1 g1]; [inversion Hall1; by subst|].
  rewrite <- (app_nil_r b2) at 2.
  rewrite (span_digits_ascii b2 g2 [] Hall2) by (reflexivity || lia).
  destruct g2 as [|v2 g2]; [inversion Hall2; by subst|].
  rewrite Hint1, Hint2. apply andb_true_iff.
  split; [apply Z.eqb_refl | apply Z.leb_le; lia].
Qed.

(** X19.  When both categories can be listed, an entry of a category named
    after the requested major and a minor between 0 and the requested minor
    ([str(major)], a dot, [str(minor)]) is always selected: found under
    [stdlib] its path is yielded under both categories, found under
    [third_party] its path is yielded under [third_party]. *)
Theorem version_directory_selected (tp : string) (fs : FileSystem)
    (version_info : VersionInfo) (l1 l2 : list string) (m : Z) :
  0 <= major version_info -> 0 <= m <= minor version_info ->
  listdir fs (path_join tp "stdlib") = inr l1 ->
  listdir fs (path_join tp "third_party") = inr l2 ->
  let name := Str.str (major version_info) ++ "." ++ Str.str m in
  let directories := yielded (_get_typeshed_directories tp fs version_info) in
  (name ∈ l1 ->
   path_join (path_join tp "stdlib") name ∈ directories /\
   path_join (path_join tp "third_party") name ∈ directories) /\
  (name ∈ l2 -> path_join (path_join tp "third_party") name ∈ directories).
Proof.
  intros Hmajor Hm H1 H2 name directories. subst directories.
  rewrite (typeshed_directories_listed tp fs version_info l1 l2 H1 H2).
  cbv zeta. cbn [gen_of_list yielded].
  pose proof (version_entry_named version_info m Hmajor Hm) as Hentry.
  fold name in Hentry.
  assert (Hfilter : forall l, name ∈ l ->
            name ∈ List.filter (version_entry version_info) l).
  { intros l Hl. apply list_elem_of_In, filter_In.
    split; [by apply list_elem_of_In | exact Hentry]. }
  split.
  - intros Hl1. split.
    + apply elem_of_app. left. apply list_elem_of_fmap_2.
      apply elem_of_app. right. by apply Hfilter.
    + apply elem_of_app. right. apply list_elem_of_fmap_2.
      apply elem_of_app. left. apply elem_of_app. right. by apply Hfilter.
  - intros Hl2. apply elem_of_app. right. apply list_elem_of_fmap_2.
    apply elem_of_app. right. by apply Hfilter.
Qed.

Lemma utf8_head_split (l rest : list ascii) (cp : N) :
  utf8_head l = Some (cp, rest) ->
  exists enc, l = (enc ++ rest)%list /\ utf8_head enc = Some (cp, []).
Proof.
  destruct l as [|c1 l1]; [discriminate|]. unfold utf8_head.
  destruct (N_of_ascii c1 <? 128)%N eqn:H1.
  { intros [= <- <-]. exists [c1]. by rewrite H1. }
  destruct (N_of_ascii c1 <? 194)%N eqn:H2; [discriminate|].
  destruct (N_of_ascii c1 <? 224)%N eqn:H3.
  { destruct l1 as [|c2 l2]; [discriminate|].
    destruct (continuation c2) as [x2|] eqn:Hx2; [|discriminate].
    intros [= <- <-]. exists [c1; c2]. by rewrite H1, H2, H3, Hx2. }
  destruct (N_of_ascii c1 <? 240)%N eqn:H4.
  { destruct l1 as [|c2 [|c3 l3]]; try discriminate.
    destruct (continuation c2) as [x2|] eqn:Hx2; [|discriminate].
    destruct (continuation c3) as [x3|] eqn:Hx3; [|discriminate].
    cbn [mbind option_bind].
    destruct (_ || _)%bool eqn:Hcp; [discriminate|].
    intros [= <- <-]. exists [c1; c2; c3].
    rewrite H1, H2, H3, H4, Hx2, Hx3. cbn [mbind option_bind]. by rewrite Hcp. }
  destruct (N_of_ascii c1 <? 245)%N eqn:H5; [|discriminate].
  destruct l1 as [|c2 [|c3 [|c4 l4]]]; try discriminate.
  destruct (continuation c2) as [x2|] eqn:Hx2; [|discriminate].
  destruct (continuation c3) as [x3|] eqn:Hx3; [|discriminate].
  destruct (continuation c4) as [x4|] eqn:Hx4; [|discriminate].
  cbn [mbind option_bind].
  destruct (_ || _)%bool eqn:Hcp; [discriminate|].
  intros [= <- <-]. exists [c1; c2; c3; c4].
  rewrite H1, H2, H3, H4, H5, Hx2, Hx3, Hx4. cbn [mbind option_bind].
  by rewrite Hcp.
Qed.

Lemma decimal_head_split (l rest : list ascii) (v : Z) :
  decimal_head l = Some (v, rest) ->
  exists enc, l = (enc ++ rest)%list /\ decimal_head enc = Some (v, []).
Proof.
  unfold decimal_head.
  destruct (utf8_head l) as [[cp rest']|] eqn:Hhead; [|discriminate].
  cbn [mbind option_bind].
  destruct (decimal_value cp) as [v'|] eqn:Hvalue; [|discriminate].
  intros [= <- <-].
  destruct (utf8_head_split l rest' cp Hhead) as (enc & -> & Henc).
  exists enc. split; [reflexivity|].
  rewrite Henc. cbn [mbind option_bind]. by rewrite Hvalue.
Qed.

Lemma span_digits_split (fuel : nat) :
  forall l g r,
    Str.span_digits_fuel fuel l = (g, r) ->
    exists encs,
      l = (List.concat encs ++ r)%list /\
      Forall2 (fun v enc => decimal_head enc = Some (v, [])) g encs.
Proof.
  induction fuel as [|fuel IH]; intros l g r; cbn [Str.span_digits_fuel].
  - intros [= <- <-]. exists []. split; [reflexivity | constructor].
  - destruct (decimal_head l) as [[v rest]|] eqn:Hhead.
    + destruct (Str.span_digits_fuel fuel rest) as [vs r'] eqn:Hrest.
      intros [= <- <-].
      destruct (IH rest vs r' Hrest) as (encs & -> & Hall).
      destruct (decimal_head_split _ _ _ Hhead) as (enc & -> & Henc).
      exists (enc :: encs). split; [cbn; by rewrite app_assoc|].
      by constructor.
    + intros [= <- <-]. exists []. split; [reflexivity | constructor].
Qed.

(** X20.  An entry of a category is selected only if its name is a run of
    decimal digits, a dot and a run of decimal digits, followed by nothing
    or by one newline, the digits being those of ASCII or of the Unicode
    database, the first run having the value of the requested major and the
    second a value that is at most the requested minor. *)
Theorem version_entry_shape (version_info : VersionInfo) (entry : string) :
  version_entry version_info entry = true ->
  exists (g1 g2 : list Z) (encs1 encs2 : list (list ascii)) (tail : list ascii),
    g1 <> [] /\ g2 <> [] /\
    Forall2 (fun v enc => decimal_head enc = Some (v, [])) g1 encs1 /\
    Forall2 (fun v enc => decimal_head enc = Some (v, [])) g2 encs2 /\
    Str.chars entry =
      (List.concat encs1 ++ "."%char :: List.concat encs2 ++ tail)%list /\
    (tail = [] \/ tail = ["010"%char]) /\
    Str.int g1 = major version_info /\ Str.int g2 <= minor version_info.
Proof.
  unfold version_entry, version_match, Str.span_digits.
  destruct (Str.span_digits_fuel _ (Str.chars entry)) as [g1 r1] eqn:H1.
  apply span_digits_split in H1 as (encs1 & Hentry & Hall1).
  destruct g1 as [|v1 g1]; [discriminate|].
  destruct r1 as [|dot r2]; [discriminate|].
  destruct (Ascii.eqb_spec dot "."%char) as [-> | Hdot];
    [|destruct dot as [[] [] [] [] [] [] [] []]; try discriminate; done].
  destruct (Str.span_digits_fuel _ r2) as [g2 r3] eqn:H2.
  apply span_digits_split in H2 as (encs2 & -> & Hall2).
  destruct g2 as [|v2 g2]; [by destruct r3 as [|? [|]]|].
  assert (Hshape : r3 = [] \/ r3 = ["010"%char] \/
                   (match r3 with
                    | [] => Some (v1 :: g1, v2 :: g2)
                    | ["010"%char] => Some (v1 :: g1, v2 :: g2)
                    | _ => None
                    end = None)).
  { destruct r3 as [|c r3]; [by left|]. right.
    destruct r3 as [|? ?].
    - destruct (Ascii.eqb_spec c "010"%char) as [-> | Hc]; [by left | right].
      destruct c as [[] [] [] [] [] [] [] []]; try reflexivity. done.
    - right. destruct c as [[] [] [] [] [] [] [] []]; reflexivity. }
  destruct Hshape as [-> | [-> | Hnone]].
  - rewrite andb_true_iff, Z.eqb_eq, Z.leb_le. intros [Hmajor Hminor].
    exists (v1 :: g1), (v2 :: g2), encs1, encs2, [].
    split; [done|]. split; [done|]. split; [done|]. split; [done|].
    split; [exact Hentry|]. split; [by left | done].
  - rewrite andb_true_iff, Z.eqb_eq, Z.leb_le. intros [Hmajor Hminor].
    exists (v1 :: g1), (v2 :: g2), encs1, encs2, ["010"%char].
    split; [done|]. split; [done|]. split; [done|]. split; [done|].
    split; [exact Hentry|]. split; [by right | done].
  - rewrite Hnone. discriminate.
Qed.

(** ** The cached index in use *)

Lemma version_entry_key (v v' : VersionInfo) (entry : string) :
  version_key v = version_key v' -> version_entry v entry = version_entry v' entry.
Proof.
  unfold version_key, version_entry. intros [= -> ->]. reflexivity.
Qed.

Lemma filter_version_entry_key (v v' : VersionInfo) (l : list string) :
  version_key v = version_key v' ->
  List.filter (version_entry v) l = List.filter (version_entry v') l.
Proof.
  intros Hkey. apply List.filter_ext. intros entry. by apply version_entry_key.
Qed.

(** X21.  Two version tuples with the same major and minor are served alike,
    stored or not: the fields after the minor change neither the directories
    yielded, nor the index built, nor the key it is stored under. *)
Theorem version_tail_ignored (tp : string) (fs : FileSystem)
    (v v' : VersionInfo) (cache : VersionCache) :
  version_key v = version_key v' ->
  _get_typeshed_directories tp fs v = _get_typeshed_directories tp fs v' /\
  _cache_stub_file_map tp fs v cache = _cache_stub_file_map tp fs v' cache.
Proof.
  intros Hkey.
  assert (Hdirs : _get_typeshed_directories tp fs v =
                  _get_typeshed_directories tp fs v').
  { rewrite !typeshed_directories_unfold. cbv zeta.
    assert (major v = major v') as -> by (injection Hkey; done).
    destruct (listdir fs (path_join tp "stdlib")); [reflexivity|].
    rewrite (filter_version_entry_key v v' _ Hkey).
    destruct (listdir fs (path_join tp "third_party")); [reflexivity|].
    by rewrite (filter_version_entry_key v v' _ Hkey). }
  split; [exact Hdirs|].
  unfold _cache_stub_file_map. by rewrite Hkey, Hdirs.
Qed.

(** X22.  When the index of the evaluator's version is stored, the import
    of a single component other than [typing] does not depend on the
    directory tree, on the root of the stub repository or on the search path
    of the parent: only the stored index is consulted.  A name the stored
    index lacks gets the result set of the inner resolver, even when a stub
    for it has appeared on disk since. *)
Theorem import_uses_cached_index (tp : string) (fs : FileSystem)
    (py__path__ : Context -> list string) (callback : Resolver ContextSet)
    (evaluator : Evaluator) (import_name : string)
    (parent : option Context) (sys_path : list string)
    (cache : VersionCache) (index : gmap string string) :
  cache !! version_key (grammar_version_info evaluator) = Some index ->
  import_name <> "typing" ->
  (forall tp' fs' py__path__',
     import_module tp fs py__path__ callback evaluator [import_name] parent
       sys_path cache =
     import_module tp' fs' py__path__' callback evaluator [import_name] parent
       sys_path cache) /\
  (index !! import_name = None ->
   import_module tp fs py__path__ callback evaluator [import_name] parent
     sys_path cache =
   (Ok (ReturnContextSet
          (callback evaluator [import_name] (callback_parent parent) sys_path)),
    cache)).
Proof.
  intros Hstored Hname.
  assert (Hmap : forall tp' fs' py__path__',
            wrapper_map tp' fs' py__path__' evaluator [import_name] import_name
              parent cache = (Ok (Some index), cache)).
  { intros tp' fs' py__path__'. unfold wrapper_map. cbn [List.length Nat.eqb].
    apply String.eqb_neq in Hname. rewrite Hname. cbn [negb andb].
    unfold mbind, M_bind.
    by rewrite (cache_stub_file_map_hit tp' fs' _ cache index Hstored). }
  split.
  - intros tp' fs' py__path__'.
    rewrite (import_module_run tp fs py__path__ callback evaluator [import_name]
               import_name parent sys_path cache cache (Some index)
               eq_refl (Hmap tp fs py__path__)).
    rewrite (import_module_run tp' fs' py__path__' callback evaluator [import_name]
               import_name parent sys_path cache cache (Some index)
               eq_refl (Hmap tp' fs' py__path__')).
    reflexivity.
  - intros Hnone.
    rewrite (import_module_run tp fs py__path__ callback evaluator [import_name]
               import_name parent sys_path cache cache (Some index)
               eq_refl (Hmap tp fs py__path__)).
    cbn [mbind option_bind]. by rewrite Hnone.
Qed.

End Properties.

(** * Witnesses and counterexamples *)

(** The properties hold for every table of decimal digits; they are run
    here with the table of Unicode 14.0. *)
#[export] Existing Instance unicode_decimals.

Example rstrip_plain : Str.rstrip "socket.pyi" ".pyi" = "socket".
Proof. reflexivity. Qed.

Example rstrip_greedy : Str.rstrip "copy.pyi" ".pyi" = "co".
Proof. reflexivity. Qed.

Example str_37 : Str.str 37 = "37" /\ Str.str 0 = "0" /\ Str.str 3 = "3".
Proof. repeat split; reflexivity. Qed.

Example join_ex :
  path_join "/ts/stdlib" "3.7" = "/ts/stdlib/3.7" /\ path_join "/ts/" "a" = "/ts/a".
Proof. split; reflexivity. Qed.

Example version_match_ex :
  version_match "3.7" = Some ([3], [7]) /\
  version_match "3.10" = Some ([3], [1; 0]) /\
  version_match "3.7rc" = None /\ version_match "2and3" = None.
Proof. repeat split; reflexivity. Qed.

Example version_match_unicode :
  version_match arabic_3_6 = Some ([3], [6]) /\
  version_entry v37 arabic_3_6 = true /\
  version_entry v35 arabic_3_6 = false.
Proof. repeat split; reflexivity. Qed.

Example version_match_newline :
  version_match (String "3" (String "." (String "7" (String "010" "")))) =
    Some ([3], [7]) /\
  version_match "3." = None /\ version_match ".7" = None /\
  version_match " 3.7" = None.
Proof. repeat split; reflexivity. Qed.

Example version_entry_ex :
  version_entry v37 "3.7" = true /\ version_entry v37 "3.5" = true /\
  version_entry v37 "3.10" = false /\ version_entry v37 "2.7" = false /\
  version_entry v37 "03.07" = true /\ version_entry v37 "3" = false.
Proof. repeat split; reflexivity. Qed.

Example create_stub_map_package :
  _create_stub_map (tree_fs alpha_tree) "/ts/stdlib/2and3" =
    {[ "alpha" := "/ts/stdlib/2and3/alpha/__init__.pyi" ]} /\
  _create_stub_map (tree_fs alpha_tree) "/ts/stdlib/3.7/alpha" = ∅ /\
  _create_stub_map (tree_fs alpha_tree) "/ts/stdlib/3" = ∅.
Proof. repeat split; reflexivity. Qed.

Lemma merge_override_by_recency_witness :
  let fs := tree_fs alpha_tree in
  let directories := _get_typeshed_directories "/ts" fs v37 in
  raised directories = None /\
  yielded directories =
    (["/ts/stdlib/2and3"; "/ts/stdlib/3"] ++ "/ts/stdlib/3.7" ::
     ["/ts/third_party/2and3"; "/ts/third_party/3"; "/ts/third_party/3.7"])%list /\
  _create_stub_map fs "/ts/stdlib/2and3" !! "alpha" =
    Some "/ts/stdlib/2and3/alpha/__init__.pyi" /\
  exists map_ : gmap string string,
    _merge_create_stub_map fs directories = Ok map_ /\
    map_ !! "alpha" = Some "/ts/stdlib/3.7/alpha/__init__.pyi".
Proof.
  intros fs directories.
  split; [reflexivity|]. split; [reflexivity|]. split; [reflexivity|].
  destruct (merge_override_by_recency fs directories
              ["/ts/stdlib/2and3"; "/ts/stdlib/3"]
              ["/ts/third_party/2and3"; "/ts/third_party/3"; "/ts/third_party/3.7"]
              "/ts/stdlib/3.7" "alpha" "/ts/stdlib/3.7/alpha/__init__.pyi")
    as (map_ & Hmerge & _ & Hlookup).
  - reflexivity.
  - reflexivity.
  - reflexivity.
  - intros later Hlater.
    repeat (apply elem_of_cons in Hlater as [-> | Hlater]; [reflexivity|]).
    by apply elem_of_nil in Hlater.
  - exists map_. split; [exact Hmerge | exact Hlookup].
Defined.

Lemma typeshed_directories_order_witness :
  let fs := tree_fs alpha_tree in
  listdir fs (path_join "/ts" "stdlib") = inr ["2and3"; "3.7"] /\
  listdir fs (path_join "/ts" "third_party") = inr ["2and3"] /\
  _get_typeshed_directories "/ts" fs v37 =
    gen_of_list
      ["/ts/stdlib/2and3"; "/ts/stdlib/3"; "/ts/stdlib/3.7";
       "/ts/third_party/2and3"; "/ts/third_party/3"; "/ts/third_party/3.7"] /\
  "/ts/third_party/3.7" ∈ yielded (_get_typeshed_directories "/ts" fs v37).
Proof.
  intros fs.
  split; [reflexivity|]. split; [reflexivity|].
  destruct (typeshed_directories_order "/ts" fs v37 ["2and3"; "3.7"] ["2and3"]
              eq_refl eq_refl) as [Horder Hcross].
  split; [exact Horder|].
  apply (Hcross "3.7"). vm_compute. left.
Defined.

(** C4 (counterexample).  A regular file named [3.6] in the category
    [stdlib] is no subdirectory of it, yet for version 3.7 its name joins
    the qualifiers: the paths yielded are not those the claim describes. *)
Lemma typeshed_directories_plain_file :
  let fs := tree_fs plain_file_tree in
  listdir fs "/ts/stdlib" = inr ["2and3"; "3.6"] /\
  listdir fs "/ts/third_party" = inr ["2and3"] /\
  isdir fs "/ts/stdlib/3.6" = false /\
  _get_typeshed_directories "/ts" fs v37 =
    gen_of_list
      ["/ts/stdlib/2and3"; "/ts/stdlib/3"; "/ts/stdlib/3.6";
       "/ts/third_party/2and3"; "/ts/third_party/3"; "/ts/third_party/3.6"] /\
  spec_typeshed_directories "/ts" fs v37 ["2and3"; "3.6"] ["2and3"] =
    ["/ts/stdlib/2and3"; "/ts/stdlib/3";
     "/ts/third_party/2and3"; "/ts/third_party/3"] /\
  _get_typeshed_directories "/ts" fs v37 <>
    gen_of_list (spec_typeshed_directories "/ts" fs v37 ["2and3"; "3.6"] ["2and3"]).
Proof.
  intros fs. repeat (split; [reflexivity|]).
  intros Heq. apply (f_equal (fun g => List.length (yielded g))) in Heq.
  vm_compute in Heq. discriminate Heq.
Qed.

(** C6 (counterexample).  Without the category [third_party] the Locator
    raises [FileNotFoundError] after the paths of [stdlib], and the request
    for the index of the version raises it too. *)
Lemma typeshed_directories_missing_category :
  let fs := tree_fs no_third_party_tree in
  _get_typeshed_directories "/ts" fs v37 =
    {| yielded := ["/ts/stdlib/2and3"; "/ts/stdlib/3"];
       raised := Some (OSError FileNotFoundError) |} /\
  _merge_create_stub_map fs (_get_typeshed_directories "/ts" fs v37) =
    Raise (OSError FileNotFoundError) /\
  _cache_stub_file_map "/ts" fs v37 ∅ = (Raise (OSError FileNotFoundError), ∅).
Proof. intros fs. repeat split; reflexivity. Qed.

Lemma stub_index_degrades_witness :
  let fs := tree_fs alpha_tree in
  listdir fs "/ts/stdlib/3" = inl FileNotFoundError /\
  _create_stub_map fs "/ts/stdlib/3" = ∅ /\
  _merge_create_stub_map fs (gen_of_list ["/ts/stdlib/3"; "/ts/third_party/3"]) = Ok ∅ /\
  raised (_get_typeshed_directories "/ts" fs v37) = None /\
  (exists map_ cache', _cache_stub_file_map "/ts" fs v37 ∅ = (Ok map_, cache')).
Proof.
  intros fs.
  destruct (stub_index_degrades "/ts" fs v37)
    as (Hempty & Hmerge & Hraised & Hcache).
  assert (Hnone : raised (_get_typeshed_directories "/ts" fs v37) = None).
  { apply Hraised. split; eexists; reflexivity. }
  split; [reflexivity|].
  split; [apply (Hempty "/ts/stdlib/3" FileNotFoundError); reflexivity|].
  split.
  { apply Hmerge. intros d Hd.
    repeat (apply elem_of_cons in Hd as [-> | Hd];
            [exists FileNotFoundError; reflexivity|]).
    by apply elem_of_nil in Hd. }
  split; [exact Hnone|].
  exact (Hcache Hnone ∅).
Defined.

Lemma stub_index_cached_witness :
  let fs := tree_fs alpha_tree in
  let index : gmap string string := {[ "alpha" := alpha_stub ]} in
  let cache1 : VersionCache := {[ (3, 7) := index ]} in
  let v372 := {| major := 3; minor := 7; more := [2] |} in
  let v36 := {| major := 3; minor := 6; more := [] |} in
  _cache_stub_file_map "/ts" fs v37 ∅ = (Ok index, cache1) /\
  _cache_stub_file_map "/ts" (tree_fs []) v372 cache1 = (Ok index, cache1) /\
  serve_all [RequestIndex "/ts" (tree_fs []) v36; RequestIndex "/ts" fs v36] cache1
    !! (3, 7) = Some index.
Proof.
  intros fs index cache1 v372 v36.
  assert (Hfirst : _cache_stub_file_map "/ts" fs v37 ∅ = (Ok index, cache1))
    by reflexivity.
  destruct (stub_index_cached "/ts" fs v37 ∅ cache1 index Hfirst)
    as [Hagain Hkept].
  split; [exact Hfirst|]. split.
  - apply (Hagain "/ts" (tree_fs []) v372). reflexivity.
  - apply (Hkept _ "/ts" fs v37). reflexivity.
Defined.

Lemma import_stub_found_witness :
  let fs := tree_fs alpha_tree in
  let index : gmap string string := {[ "alpha" := alpha_stub ]} in
  let cache1 : VersionCache := {[ (3, 7) := index ]} in
  import_module "/ts" fs alpha_path resolver_alpha ev37 ["alpha"] None [] ∅ =
    (Ok (ReturnContextSet
           [ModuleStubContext ev37 (node 7) alpha_stub [] (concrete_alpha ev37) None]),
     cache1) /\
  import_module "/ts" fs alpha_path (fun _ _ _ _ => []) ev37 ["alpha"] None [] ∅ =
    (Ok (ReturnContext (ModuleContext ev37 (node 7) alpha_stub [])), cache1).
Proof.
  intros fs index cache1.
  assert (Hmap : wrapper_map "/ts" fs alpha_path ev37 ["alpha"] "alpha" None ∅
                 = (Ok (Some index), cache1)) by reflexivity.
  assert (Hpath : index !! "alpha" = Some alpha_stub) by reflexivity.
  assert (Hload : _load_stub ev37 alpha_stub = Ok (node 7)) by reflexivity.
  split.
  - destruct (import_stub_found "/ts" fs alpha_path resolver_alpha ev37 ["alpha"]
                "alpha" None [] ∅ cache1 index alpha_stub (node 7)
                eq_refl Hmap Hpath Hload) as [_ Hsome].
    destruct Hsome as (overlaid & Hrun & Hall); [discriminate|].
    rewrite Hrun. do 2 f_equal.
    inversion Hall as [|? ? ? ? Hhead Htail]; subst.
    inversion Htail; subst. reflexivity.
  - destruct (import_stub_found "/ts" fs alpha_path (fun _ _ _ _ => []) ev37
                ["alpha"] "alpha" None [] ∅ cache1 index alpha_stub (node 7)
                eq_refl Hmap Hpath Hload) as [Hnone _].
    apply Hnone. reflexivity.
Defined.

(** C3 (counterexample).  The import path is the single component [typing]
    and the parent context is the stub-backed package [alpha], whose search
    path holds a stub [typing.pyi]: the index of the parent is consulted and
    the wrapper returns the stub module, not the empty result of the inner
    resolver. *)
Lemma import_typing_under_stub_parent :
  let fs := tree_fs typing_tree in
  let parent := Some (overlaid_alpha ev37) in
  resolver_alpha ev37 ["typing"] (callback_parent parent) [] = [] /\
  import_module "/ts" fs alpha_path resolver_alpha ev37 ["typing"] parent [] ∅ =
    (Ok (ReturnContext
           (ModuleContext ev37 (node 9) "/ts/stdlib/3.7/alpha/typing.pyi" [])), ∅) /\
  fst (import_module "/ts" fs alpha_path resolver_alpha ev37 ["typing"] parent [] ∅) <>
    Ok (ReturnContextSet
          (resolver_alpha ev37 ["typing"] (callback_parent parent) [])).
Proof.
  intros fs parent.
  assert (Hrun :
    import_module "/ts" fs alpha_path resolver_alpha ev37 ["typing"] parent [] ∅ =
    (Ok (ReturnContext
           (ModuleContext ev37 (node 9) "/ts/stdlib/3.7/alpha/typing.pyi" [])), ∅))
    by reflexivity.
  split; [reflexivity|]. split; [exact Hrun|].
  rewrite Hrun. cbn [fst]. discriminate.
Qed.

Lemma import_without_stub_witness :
  let fs := tree_fs alpha_tree in
  let index : gmap string string := {[ "alpha" := alpha_stub ]} in
  let cache1 : VersionCache := {[ (3, 7) := index ]} in
  (index !! "alpha" = Some alpha_stub /\
   _load_stub ev37_removed alpha_stub = Raise (OSError FileNotFoundError) /\
   import_module "/ts" fs alpha_path resolver_alpha ev37_removed ["alpha"] None [] ∅ =
     (Ok (ReturnContextSet [concrete_alpha ev37_removed]), cache1)) /\
  import_module "/ts" fs alpha_path resolver_probe ev37 ["typing"] None [] ∅ =
    (Ok (ReturnContextSet [OtherContext ev37 0]), ∅) /\
  import_module "/ts" fs alpha_path resolver_probe ev37 ["alpha"; "beta"]
      (Some (concrete_alpha ev37)) [] ∅ =
    (Ok (ReturnContextSet [OtherContext ev37 2]), ∅) /\
  import_module "/ts" fs alpha_path resolver_alpha ev37 ["gamma"] None [] ∅ =
    (Ok (ReturnContextSet []), cache1).
Proof.
  intros fs index cache1.
  split; [split; [reflexivity | split; [reflexivity|]] | split; [|split]].
  - eapply eq_trans.
    + apply (import_without_stub "/ts" fs alpha_path resolver_alpha ev37_removed
               ["alpha"] "alpha" None [] ∅ eq_refl).
      right. right. exists index, cache1. split; [reflexivity|].
      right. exists alpha_stub. split; reflexivity.
    + reflexivity.
  - eapply eq_trans.
    + apply (import_without_stub "/ts" fs alpha_path resolver_probe ev37
               ["typing"] "typing" None [] ∅ eq_refl).
      left. split; reflexivity.
    + reflexivity.
  - eapply eq_trans.
    + apply (import_without_stub "/ts" fs alpha_path resolver_probe ev37
               ["alpha"; "beta"] "beta" (Some (concrete_alpha ev37)) [] ∅ eq_refl).
      right. left. split; [cbn; lia | reflexivity].
    + reflexivity.
  - eapply eq_trans.
    + apply (import_without_stub "/ts" fs alpha_path resolver_alpha ev37
               ["gamma"] "gamma" None [] ∅ eq_refl).
      right. right. exists index, cache1. split; [reflexivity|].
      left. reflexivity.
    + reflexivity.
Defined.

Lemma inner_resolver_arguments_witness :
  let fs := tree_fs alpha_tree in
  let parent := Some (overlaid_alpha ev37) in
  resolver_probe ev37 ["alpha"; "beta"] parent [] = [OtherContext ev37 1] /\
  resolver_probe ev37 ["alpha"; "beta"] (Some (concrete_alpha ev37)) [] =
    [OtherContext ev37 2] /\
  import_module "/ts" fs alpha_path resolver_probe ev37 ["alpha"; "beta"] parent [] ∅ =
    (Ok (ReturnContextSet [OtherContext ev37 2]), ∅) /\
  import_module "/ts" fs alpha_path (fun _ _ _ _ => [OtherContext ev37 2]) ev37
      ["alpha"; "beta"] parent [] ∅ =
    import_module "/ts" fs alpha_path resolver_probe ev37 ["alpha"; "beta"] parent [] ∅.
Proof.
  intros fs parent.
  destruct (inner_resolver_arguments "/ts" fs alpha_path resolver_probe ev37
              ["alpha"; "beta"] parent [] ∅) as [Hsame Hused].
  split; [reflexivity|]. split; [reflexivity|]. split.
  - specialize (Hused (ReturnContextSet [OtherContext ev37 2]) ∅ eq_refl).
    reflexivity.
  - apply Hsame. reflexivity.
Defined.

Lemma bare_import_visibility_witness :
  _is_name_reachable (alpha_filter false) name_Y_bare = Ok false /\
  _filter (alpha_filter false) [name_Y_bare; name_X] = Ok [name_X] /\
  _filter (alpha_filter true) [name_Y_bare; name_X] = Ok [name_Y_bare; name_X] /\
  _is_name_reachable (alpha_filter false) name_Y_alias = Ok true /\
  name_Y_alias ∈ [name_Y_alias; name_X].
Proof.
  destruct (bare_import_visibility (alpha_filter false) [name_Y_bare; name_X] "Y")
    as (Hbare & _ & _).
  destruct (bare_import_visibility (alpha_filter true) [name_Y_bare; name_X] "Y")
    as (_ & Hglobal & _).
  destruct (bare_import_visibility (alpha_filter false) [name_Y_alias; name_X] "Y")
    as (_ & _ & Halias).
  destruct (Hbare eq_refl) as [Hrejected Habsent].
  { intros name Hin HY.
    apply elem_of_cons in Hin as [-> | Hin];
      [|apply list_elem_of_singleton in Hin as ->; discriminate HY].
    split; [left; reflexivity | split; discriminate]. }
  destruct (Halias eq_refl name_Y_alias "import_from") as [Hreach Hpresent];
    [left | reflexivity | left; reflexivity |].
  split; [apply Hrejected; [left | reflexivity]|].
  split; [reflexivity|].
  split; [exact (Hglobal eq_refl)|].
  split; [exact Hreach|].
  apply (Hpresent eq_refl). reflexivity.
Defined.

Lemma merged_names_witness :
  exists groups,
    _convert_names (alpha_filter false) [name_X; name_Y_alias] = Ok (List.concat groups) /\
    List.concat groups =
      [StubName (concrete_alpha ev37) concrete_X (overlaid_alpha ev37) name_X;
       TreeNameDefinition (overlaid_alpha ev37) name_Y_alias] /\
    infer infer_function
      (StubName (concrete_alpha ev37) concrete_X (overlaid_alpha ev37) name_X) =
      [FunctionStubContext ev37 (overlaid_alpha ev37) (node 3)] /\
    goto_target
      (StubName (concrete_alpha ev37) concrete_X (overlaid_alpha ev37) name_X) =
      Some (concrete_alpha ev37, concrete_X).
Proof.
  destruct (merged_names infer_function (alpha_filter false) [name_X; name_Y_alias])
    as (groups & Hrun & Hrel).
  { intros name n Hname Hn.
    apply elem_of_cons in Hname as [-> | Hname].
    - apply list_elem_of_singleton in Hn as ->.
      eexists _, _. split; reflexivity.
    - apply list_elem_of_singleton in Hname as ->.
      by apply elem_of_nil in Hn. }
  exists groups. split; [exact Hrun|].
  assert (Heval : _convert_names (alpha_filter false) [name_X; name_Y_alias] =
                  Ok [StubName (concrete_alpha ev37) concrete_X
                        (overlaid_alpha ev37) name_X;
                      TreeNameDefinition (overlaid_alpha ev37) name_Y_alias])
    by reflexivity.
  rewrite Heval in Hrun. injection Hrun as <-.
  split; [reflexivity|]. split; reflexivity.
Defined.

Lemma stub_paths_are_stub_files_witness :
  let fs := tree_fs alpha_tree in
  _create_stub_map fs "/ts/stdlib/3.7" !! "alpha" = Some alpha_stub /\
  isfile fs alpha_stub = true /\ Str.endswith alpha_stub ".pyi" = true.
Proof.
  intros fs.
  assert (H : _create_stub_map fs "/ts/stdlib/3.7" !! "alpha" = Some alpha_stub)
    by reflexivity.
  split; [exact H|].
  exact (stub_paths_are_stub_files fs "/ts/stdlib/3.7" "alpha" alpha_stub H).
Defined.

Lemma standalone_stub_key_witness :
  let fs := tree_fs copy_tree in
  last_char_in "copy" ".pyi" = true /\
  isdir fs (path_join "/stubs" "copy") = false /\
  isfile fs "/stubs/copy.pyi" = true /\
  _create_stub_map fs "/stubs" !! "copy" = None.
Proof.
  intros fs. split; [reflexivity|]. split; [reflexivity|]. split; [reflexivity|].
  apply (standalone_stub_key fs "/stubs" "copy"); [left|]; reflexivity.
Defined.

Lemma standalone_stub_registered_witness :
  let fs := tree_fs socket_tree in
  listdir fs "/stubs" = inr ([] ++ ("socket" ++ ".pyi")%string :: ["os"; "README"])%list /\
  _create_stub_map fs "/stubs" !! "socket" = Some "/stubs/socket.pyi".
Proof.
  intros fs. split; [reflexivity|].
  apply (standalone_stub_registered fs "/stubs" "socket" [] ["os"; "README"]);
    try reflexivity; [discriminate|].
  intros later Hlater.
  repeat (apply elem_of_cons in Hlater as [-> | Hlater];
          [split; discriminate|]).
  by apply elem_of_nil in Hlater.
Defined.

Lemma package_stub_registered_witness :
  let fs := tree_fs socket_tree in
  listdir fs "/stubs" = inr (["socket.pyi"] ++ "os" :: ["README"])%list /\
  _create_stub_map fs "/stubs" !! "os" = Some "/stubs/os/__init__.pyi".
Proof.
  intros fs. split; [reflexivity|].
  apply (package_stub_registered fs "/stubs" "os" ["socket.pyi"] ["README"]);
    try reflexivity.
  intros later Hlater.
  apply list_elem_of_singleton in Hlater as ->. split; discriminate.
Defined.

Lemma merged_index_lookup_witness :
  let fs := tree_fs alpha_tree in
  let directories := gen_of_list ["/ts/stdlib/2and3"; "/ts/stdlib/3"] in
  exists map_,
    _merge_create_stub_map fs directories = Ok map_ /\
    map_ !! "beta" = None /\
    exists d, d ∈ yielded directories /\
              _create_stub_map fs d !! "alpha" = map_ !! "alpha".
Proof.
  intros fs directories.
  exists {[ "alpha" := "/ts/stdlib/2and3/alpha/__init__.pyi" ]}.
  assert (Hrun : _merge_create_stub_map fs directories =
                 Ok {[ "alpha" := "/ts/stdlib/2and3/alpha/__init__.pyi" ]})
    by reflexivity.
  destruct (merged_index_lookup fs directories _ "beta" Hrun) as [[_ Hnone] _].
  destruct (merged_index_lookup fs directories _ "alpha" Hrun) as [_ Hsome].
  split; [exact Hrun|]. split.
  - apply Hnone. intros d Hd.
    repeat (apply elem_of_cons in Hd as [-> | Hd]; [reflexivity|]).
    by apply elem_of_nil in Hd.
  - destruct (Hsome "/ts/stdlib/2and3/alpha/__init__.pyi" eq_refl) as (d & Hd & Hreg).
    exists d. split; [exact Hd|]. rewrite Hreg. reflexivity.
Defined.

Lemma merge_of_concatenation_witness :
  let fs := tree_fs alpha_tree in
  _merge_create_stub_map fs (gen_of_list ["/ts/stdlib/2and3"]) =
    Ok {[ "alpha" := "/ts/stdlib/2and3/alpha/__init__.pyi" ]} /\
  _merge_create_stub_map fs (gen_of_list ["/ts/stdlib/3"; "/ts/stdlib/3.7"]) =
    Ok {[ "alpha" := alpha_stub ]} /\
  _merge_create_stub_map fs
    (gen_of_list (["/ts/stdlib/2and3"] ++ ["/ts/stdlib/3"; "/ts/stdlib/3.7"])) =
    Ok {[ "alpha" := alpha_stub ]}.
Proof.
  intros fs.
  assert (H1 : _merge_create_stub_map fs (gen_of_list ["/ts/stdlib/2and3"]) =
               Ok {[ "alpha" := "/ts/stdlib/2and3/alpha/__init__.pyi" ]})
    by reflexivity.
  assert (H2 : _merge_create_stub_map fs
                 (gen_of_list ["/ts/stdlib/3"; "/ts/stdlib/3.7"]) =
               Ok {[ "alpha" := alpha_stub ]}) by reflexivity.
  split; [exact H1|]. split; [exact H2|].
  rewrite (merge_of_concatenation fs _ _ _ _ H1 H2). reflexivity.
Defined.

Lemma typeshed_directories_partial_witness :
  _get_typeshed_directories "/ts" (tree_fs []) v37 =
    {| yielded := []; raised := Some (OSError FileNotFoundError) |} /\
  _get_typeshed_directories "/ts" (tree_fs locked_third_party_tree) v37 =
    {| yielded := ["/ts/stdlib/2and3"; "/ts/stdlib/3"; "/ts/stdlib/3.5";
                   "/ts/stdlib/3.7"];
       raised := Some (OSError PermissionError) |}.
Proof.
  split.
  - apply (proj1 (typeshed_directories_partial "/ts" (tree_fs []) v37)
             FileNotFoundError).
    reflexivity.
  - apply (proj2 (typeshed_directories_partial "/ts"
                    (tree_fs locked_third_party_tree) v37)
             ["2and3"; "3.5"; "3.7"; "3.8"] PermissionError); reflexivity.
Defined.

Lemma typeshed_directories_monotone_witness :
  let fs := tree_fs locked_third_party_tree in
  "/ts/stdlib/3.5" ∈ yielded (_get_typeshed_directories "/ts" fs v35) /\
  "/ts/stdlib/3.5" ∈ yielded (_get_typeshed_directories "/ts" fs v37) /\
  "/ts/stdlib/3.7" ∉ yielded (_get_typeshed_directories "/ts" fs v35).
Proof.
  intros fs.
  assert (H35 : "/ts/stdlib/3.5" ∈ yielded (_get_typeshed_directories "/ts" fs v35)).
  { vm_compute. do 2 right. left. }
  split; [exact H35|]. split.
  - apply (typeshed_directories_monotone "/ts" fs v35 v37); [reflexivity | | exact H35].
    cbn. lia.
  - vm_compute. intros H.
    repeat (apply elem_of_cons in H as [H | H]; [discriminate H|]).
    by apply elem_of_nil in H.
Defined.

Lemma third_party_overrides_witness :
  let fs := tree_fs both_categories_tree in
  _create_stub_map fs "/ts/stdlib/3.7" !! "alpha" = Some "/ts/stdlib/3.7/alpha.pyi" /\
  exists map_,
    _merge_create_stub_map fs (_get_typeshed_directories "/ts" fs v37) = Ok map_ /\
    map_ !! "alpha" = Some "/ts/third_party/2and3/alpha/__init__.pyi".
Proof.
  intros fs. split; [reflexivity|].
  destruct (third_party_overrides "/ts" fs v37 ["2and3"; "3.7"] ["2and3"]
              "2and3" "alpha" "/ts/third_party/2and3/alpha/__init__.pyi")
    as (map_ & q' & p & Hrun & Hlookup & _ & _);
    [reflexivity | reflexivity | vm_compute; left | reflexivity |].
  exists map_. split; [exact Hrun|].
  assert (Heval : _merge_create_stub_map fs (_get_typeshed_directories "/ts" fs v37)
                  = Ok {[ "alpha" := "/ts/third_party/2and3/alpha/__init__.pyi";
                          "beta" := "/ts/third_party/2and3/beta.pyi" ]})
    by reflexivity.
  rewrite Heval in Hrun. injection Hrun as <-. reflexivity.
Defined.

Lemma cache_request_frame_witness :
  let fs := tree_fs alpha_tree in
  let cache : VersionCache := {[ (3, 5) := ∅ ]} in
  snd (_cache_stub_file_map "/ts" fs v37 cache) !! (3, 5) = Some ∅ /\
  snd (_cache_stub_file_map "/ts" fs v37 cache) !! (2, 7) = None /\
  snd (_cache_stub_file_map "/ts" fs v35 cache) = cache.
Proof.
  intros fs cache.
  destruct (cache_request_frame "/ts" fs v37 cache) as [Hother _].
  destruct (cache_request_frame "/ts" fs v35 cache) as [_ Hstored].
  split; [|split].
  - rewrite (Hother (3, 5)); [reflexivity | discriminate].
  - rewrite (Hother (2, 7)); [reflexivity | discriminate].
  - apply Hstored. exists ∅. reflexivity.
Defined.

Lemma failed_request_not_cached_witness :
  let broken := tree_fs no_third_party_tree in
  let repaired := tree_fs alpha_tree in
  _cache_stub_file_map "/ts" broken v37 ∅ = (Raise (OSError FileNotFoundError), ∅) /\
  _cache_stub_file_map "/ts" repaired v37 ∅ =
    (Ok {[ "alpha" := alpha_stub ]}, {[ (3, 7) := {[ "alpha" := alpha_stub ]} ]}).
Proof.
  intros broken repaired.
  assert (Hfail : _cache_stub_file_map "/ts" broken v37 ∅
                  = (Raise (OSError FileNotFoundError), ∅)) by reflexivity.
  split; [exact Hfail|].
  destruct (failed_request_not_cached "/ts" broken v37 ∅ ∅ _ Hfail)
    as (_ & _ & _ & Hretry).
  destruct (Hretry repaired eq_refl) as (map_ & Hmerge & Hrun).
  assert (Heval : _merge_create_stub_map repaired
                    (_get_typeshed_directories "/ts" repaired v37)
                  = Ok {[ "alpha" := alpha_stub ]}) by reflexivity.
  rewrite Heval in Hmerge. injection Hmerge as <-. exact Hrun.
Defined.

Lemma import_module_raises_witness :
  let fs := tree_fs alpha_tree in
  let cache1 : VersionCache := {[ (3, 7) := {[ "alpha" := alpha_stub ]} ]} in
  import_module "/ts" fs alpha_path resolver_alpha ev37 [] None [] ∅ =
    (Raise IndexError, ∅) /\
  import_module "/ts" (tree_fs no_third_party_tree) alpha_path resolver_alpha ev37
      ["alpha"] None [] ∅ = (Raise (OSError FileNotFoundError), ∅) /\
  _load_stub ev37_locked alpha_stub = Raise (OSError PermissionError) /\
  import_module "/ts" fs alpha_path resolver_alpha ev37_locked ["alpha"] None [] ∅ =
    (Raise (OSError PermissionError), cache1).
Proof.
  intros fs cache1.
  split; [|split; [|split; [reflexivity|]]].
  - apply (proj1 (import_module_raises "/ts" fs alpha_path resolver_alpha ev37
                    [] "" None [] ∅)).
    reflexivity.
  - apply (proj1 (proj2 (import_module_raises "/ts" (tree_fs no_third_party_tree)
                           alpha_path resolver_alpha ev37 ["alpha"] "alpha"
                           None [] ∅))); [reflexivity | discriminate | reflexivity].
  - apply (proj2 (proj2 (import_module_raises "/ts" fs alpha_path resolver_alpha
                           ev37_locked ["alpha"] "alpha" None [] ∅))
             {[ "alpha" := alpha_stub ]} cache1 alpha_stub);
      [reflexivity | reflexivity | reflexivity | reflexivity | discriminate].
Defined.

Lemma import_module_keeps_cache_witness :
  let fs := tree_fs typing_tree in
  let cache : VersionCache := {[ (3, 5) := ∅ ]} in
  snd (import_module "/ts" fs alpha_path resolver_alpha ev37 ["alpha"; "typing"]
         (Some (overlaid_alpha ev37)) [] cache) = cache /\
  snd (import_module "/ts" fs alpha_path resolver_alpha ev37 ["typing"]
         None [] cache) = cache.
Proof.
  intros fs cache. split.
  - apply import_module_keeps_cache. left. cbn. lia.
  - apply import_module_keeps_cache. right. reflexivity.
Defined.

Lemma submodule_of_stub_only_module_witness :
  let fs := tree_fs alpha_tree in
  let fs' := tree_fs typing_tree in
  import_module "/ts" fs alpha_path (fun _ _ _ _ => []) ev37 ["alpha"] None [] ∅ =
    (Ok (ReturnContext (stub_only_alpha ev37)),
     {[ (3, 7) := {[ "alpha" := alpha_stub ]} ]}) /\
  _create_stub_map fs' "/ts/stdlib/3.7/alpha" !! "typing" =
    Some "/ts/stdlib/3.7/alpha/typing.pyi" /\
  import_module "/ts" fs' alpha_path resolver_probe ev37 ["alpha"; "typing"]
      (Some (stub_only_alpha ev37)) [] ∅ =
    (Ok (ReturnContextSet [OtherContext ev37 2]), ∅).
Proof.
  intros fs fs'.
  assert (Hfirst :
    import_module "/ts" fs alpha_path (fun _ _ _ _ => []) ev37 ["alpha"] None [] ∅ =
    (Ok (ReturnContext (stub_only_alpha ev37)),
     {[ (3, 7) := {[ "alpha" := alpha_stub ]} ]})) by reflexivity.
  split; [exact Hfirst|]. split; [reflexivity|].
  eapply eq_trans.
  - apply (submodule_of_stub_only_module _ _ _ _ _ _ _ _ _ _ _ Hfirst
             "/ts" fs' alpha_path resolver_probe ev37 ["alpha"; "typing"] "typing"
             [] ∅); [cbn; lia | reflexivity].
  - reflexivity.
Defined.

Lemma convert_names_returns_witness :
  (exists out, _convert_names (alpha_filter false) [name_X; name_Y_bare] = Ok out) /\
  _convert_names compiled_filter [name_X] = Raise AssertionError /\
  _convert_names
    {| context := overlaid_alpha ev37; _search_global := false;
       _non_stub_filter_get _ := [TreeNameDefinition (concrete_alpha ev37) concrete_X];
       super_is_name_reachable _ := true |} [name_X] = Raise AttributeError.
Proof.
  destruct (convert_names_returns (alpha_filter false) [name_X; name_Y_bare])
    as [[_ Hreturns] _].
  destruct (convert_names_returns compiled_filter [name_X]) as [_ Hraises].
  split; [|split; [|reflexivity]].
  - apply Hreturns. intros name n Hname Hn.
    apply elem_of_cons in Hname as [-> | Hname].
    + apply list_elem_of_singleton in Hn as ->. eexists _, _. split; reflexivity.
    + apply list_elem_of_singleton in Hname as ->. by apply elem_of_nil in Hn.
  - destruct (Hraises AssertionError eq_refl); reflexivity.
Defined.

Lemma filter_removes_only_witness :
  _filter (alpha_filter false) [name_Y_bare; name_X; name_Y_alias] =
    Ok [name_X; name_Y_alias] /\
  [name_X; name_Y_alias] `sublist_of`
    List.filter (super_is_name_reachable (alpha_filter false))
      [name_Y_bare; name_X; name_Y_alias].
Proof.
  assert (H : _filter (alpha_filter false) [name_Y_bare; name_X; name_Y_alias] =
              Ok [name_X; name_Y_alias]) by reflexivity.
  split; [exact H|].
  exact (filter_removes_only _ _ _ H).
Defined.

Lemma convert_names_covers_witness :
  let out :=
    [StubName (concrete_alpha ev37) concrete_X (overlaid_alpha ev37) name_X;
     TreeNameDefinition (overlaid_alpha ev37) name_Y_alias] in
  _convert_names (alpha_filter false) [name_X; name_Y_alias] = Ok out /\
  exists entry, entry ∈ out /\
                inferred_from entry = Some (overlaid_alpha ev37, name_Y_alias).
Proof.
  intros out.
  assert (H : _convert_names (alpha_filter false) [name_X; name_Y_alias] = Ok out)
    by reflexivity.
  split; [exact H|].
  destruct (convert_names_covers _ _ _ H) as (Hcover & _ & _).
  apply (Hcover name_Y_alias). right. left.
Defined.

Lemma stub_module_filters_witness :
  exists wrapped,
    get_filters (overlaid_alpha ev37) [alpha_default_filter; empty_default_filter]
      (fun _ => true) false =
      Some [WrappedFilter wrapped; PlainFilter empty_default_filter] /\
    _non_stub_filter_get wrapped "X" =
      [TreeNameDefinition (overlaid_alpha ev37) concrete_X] /\
    _convert_names wrapped [name_X; name_Y_alias] =
      Ok [StubName (concrete_alpha ev37) concrete_X (overlaid_alpha ev37) name_X;
          TreeNameDefinition (overlaid_alpha ev37) name_Y_alias] /\
    get_filters (overlaid_alpha ev37) [] (fun _ => true) false = None.
Proof.
  destruct (stub_module_filters ev37 (node 7) alpha_stub [] (concrete_alpha ev37)
              None alpha_default_filter [empty_default_filter] (fun _ => true) false)
    as (wrapped & Hfilters & _ & _ & Hget & _ & Hconvert).
  { intros name n. cbn. destruct (String.eqb name "X"); intros Hn.
    - apply list_elem_of_singleton in Hn as ->. eexists. reflexivity.
    - by apply elem_of_nil in Hn. }
  exists wrapped. split; [exact Hfilters|].
  split; [by rewrite Hget|].
  destruct (Hconvert [name_X; name_Y_alias]) as (groups & Hrun & _).
  injection Hfilters as <-. split; reflexivity.
Defined.

Lemma version_directory_selected_witness :
  let fs := tree_fs alpha_tree in
  "/ts/stdlib/3.7" ∈ yielded (_get_typeshed_directories "/ts" fs v37) /\
  "/ts/third_party/3.7" ∈ yielded (_get_typeshed_directories "/ts" fs v37).
Proof.
  intros fs.
  destruct (version_directory_selected "/ts" fs v37 ["2and3"; "3.7"] ["2and3"] 7)
    as [Hstdlib _]; [cbn; lia | cbn; lia | reflexivity | reflexivity |].
  apply Hstdlib. right. left.
Defined.

Lemma version_entry_shape_witness :
  version_entry v37 arabic_3_6 = true /\
  decimal_head ["217"; "163"]%char = Some (3, []) /\
  exists (g1 g2 : list Z) (encs1 encs2 : list (list ascii)) (tail : list ascii),
    Forall2 (fun v enc => decimal_head enc = Some (v, [])) g1 encs1 /\
    Forall2 (fun v enc => decimal_head enc = Some (v, [])) g2 encs2 /\
    Str.chars arabic_3_6 =
      (List.concat encs1 ++ "."%char :: List.concat encs2 ++ tail)%list /\
    Str.int g1 = 3 /\ Str.int g2 <= 7.
Proof.
  assert (H : version_entry v37 arabic_3_6 = true) by reflexivity.
  split; [exact H|]. split; [reflexivity|].
  destruct (version_entry_shape v37 arabic_3_6 H)
    as (g1 & g2 & encs1 & encs2 & tail & _ & _ & H1 & H2 & Hshape & _ & Hmajor & Hminor).
  exists g1, g2, encs1, encs2, tail. done.
Defined.

Lemma version_tail_ignored_witness :
  let fs := tree_fs alpha_tree in
  let v372 := {| major := 3; minor := 7; more := [2] |} in
  _cache_stub_file_map "/ts" fs v372 ∅ =
    (Ok {[ "alpha" := alpha_stub ]}, {[ (3, 7) := {[ "alpha" := alpha_stub ]} ]}).
Proof.
  intros fs v372.
  rewrite (proj2 (version_tail_ignored "/ts" fs v372 v37 ∅ eq_refl)).
  reflexivity.
Defined.

Lemma import_uses_cached_index_witness :
  let fs := tree_fs alpha_tree in
  let stale : VersionCache := {[ (3, 7) := ∅ ]} in
  _create_stub_map fs "/ts/stdlib/3.7" !! "alpha" = Some alpha_stub /\
  import_module "/ts" fs alpha_path resolver_alpha ev37 ["alpha"] None [] stale =
    (Ok (ReturnContextSet [concrete_alpha ev37]), stale).
Proof.
  intros fs stale. split; [reflexivity|].
  eapply eq_trans.
  - apply (proj2 (import_uses_cached_index "/ts" fs alpha_path resolver_alpha ev37
                    "alpha" None [] stale ∅ eq_refl ltac:(discriminate))).
    reflexivity.
  - reflexivity.
Defined.
